(** * ldes_tree_vs_jelly_benchmark: the TREE profile writer and its
      streaming batch parser

    A shallow embedding of [ldes_tree_vs_jelly_benchmark.py].  Python
    [str] values are modelled by [string], one [ascii] per character (code
    points below 256); Python [int] values by [Z]; the gzip layer and the
    UTF-8 codec are the identity on text, so a file is the text written
    to it.  Exceptions are results of type [result]; the module [random]
    is a type class; [time.perf_counter] is a sequence of readings. *)

From Stdlib Require Import ZArith NArith List String Ascii Bool Lia.
From Stdlib Require Import DecimalString DecimalZ DecimalPos DecimalN.
From Stdlib Require Import Permutation.
Import ListNotations.

Local Open Scope string_scope.
Local Open Scope Z_scope.

(** ** Python exceptions and the error monad *)

(** The argument of a [ValueError]: a text the program builds itself, or
    the message the interpreter builds, named by its cause. *)
Inductive message : Type :=
| Text (s : string)
| InvalidIntLiteral (text : string)   (* of [int] on [text] *)
| EmptyRange (a b : Z).               (* of [random.randint(a, b)], b < a *)

Inductive exn : Type :=
| ValueError (msg : message)
| IndexError
| KeyError (key : string)
| TypeError.

Inductive result (A : Type) : Type :=
| Ok (a : A)
| Raise (e : exn).

Arguments Ok {A} a.
Arguments Raise {A} e.

Definition bind {A B : Type} (r : result A) (k : A -> result B) : result B :=
  match r with
  | Ok a => k a
  | Raise e => Raise e
  end.

Notation "x <- r ;; k" := (bind r (fun x => k))
  (at level 61, r at next level, right associativity).

(** ** Text primitives of Python's [str] *)

Module Text.

Definition LF : ascii := ascii_of_nat 10.
Definition CR : ascii := ascii_of_nat 13.

(** [str.isspace] on one character, for code points below 256. *)
Definition isspace (c : ascii) : bool :=
  let n := N_of_ascii c in
  (((9 <=? n) && (n <=? 13)) || ((28 <=? n) && (n <=? 32))
   || (n =? 133) || (n =? 160))%N.

Definition isdigit (c : ascii) : bool :=
  let n := N_of_ascii c in ((48 <=? n) && (n <=? 57))%N.

Fixpoint all_chars (p : ascii -> bool) (s : string) : bool :=
  match s with
  | EmptyString => true
  | String c r => p c && all_chars p r
  end.

(** [s.startswith(p)] *)
Fixpoint startswith (s p : string) {struct p} : bool :=
  match p with
  | EmptyString => true
  | String c p' =>
      match s with
      | EmptyString => false
      | String d s' => Ascii.eqb d c && startswith s' p'
      end
  end.

(** [s.endswith(p)]: some tail of [s] is [p]. *)
Fixpoint endswith (s p : string) : bool :=
  (s =? p)%string ||
  match s with
  | EmptyString => false
  | String _ r => endswith r p
  end.

Fixpoint lstrip (s : string) : string :=
  match s with
  | EmptyString => EmptyString
  | String c r => if isspace c then lstrip r else s
  end.

Fixpoint rstrip (s : string) : string :=
  match s with
  | EmptyString => EmptyString
  | String c r =>
      match rstrip r with
      | EmptyString => if isspace c then EmptyString else String c EmptyString
      | r' => String c r'
      end
  end.

(** [s.strip()] *)
Definition strip (s : string) : string := rstrip (lstrip s).

(** The characters [int] skips at both ends of a text, for code points
    below 256: the C white space of ASCII, and the two Unicode spaces
    above 127.  The separators 28 to 31, white space for [str.strip], are
    not among them. *)
Definition int_isspace (c : ascii) : bool :=
  let n := N_of_ascii c in
  (((9 <=? n) && (n <=? 13)) || (n =? 32) || (n =? 133) || (n =? 160))%N.

Fixpoint lstrip_by (p : ascii -> bool) (s : string) : string :=
  match s with
  | EmptyString => EmptyString
  | String c r => if p c then lstrip_by p r else s
  end.

Fixpoint rstrip_by (p : ascii -> bool) (s : string) : string :=
  match s with
  | EmptyString => EmptyString
  | String c r =>
      match rstrip_by p r with
      | EmptyString => if p c then EmptyString else String c EmptyString
      | r' => String c r'
      end
  end.

Definition strip_by (p : ascii -> bool) (s : string) : string :=
  rstrip_by p (lstrip_by p s).

(** [s.split(sep, maxsplit)] for a one-character separator; [acc] is the
    field being read. *)
Fixpoint split_from (acc : string) (sep : ascii) (maxsplit : nat) (s : string)
  : list string :=
  match s with
  | EmptyString => [acc]
  | String c r =>
      if Ascii.eqb c sep then
        match maxsplit with
        | O => split_from (acc ++ String c EmptyString) sep O r
        | S k => acc :: split_from EmptyString sep k r
        end
      else split_from (acc ++ String c EmptyString) sep maxsplit r
  end.

Definition split (s : string) (sep : ascii) (maxsplit : nat) : list string :=
  split_from EmptyString sep maxsplit s.

(** [s.split(sep)[-1]]: the text after the last separator. *)
Fixpoint last_field_from (acc : string) (sep : ascii) (s : string) : string :=
  match s with
  | EmptyString => acc
  | String c r =>
      if Ascii.eqb c sep then last_field_from EmptyString sep r
      else last_field_from (acc ++ String c EmptyString) sep r
  end.

Definition last_field (s : string) (sep : ascii) : string :=
  last_field_from EmptyString sep s.

(** Iterating a file opened in text mode with universal newlines: a line
    ends at LF, CR or CR LF, each handed over as LF; a last line without
    terminator is handed over as it is.  [pending_cr] remembers that the
    previous character was a CR, [acc] is the line being read. *)
Fixpoint read_from (pending_cr : bool) (acc : string) (s : string)
  : list string :=
  match s with
  | EmptyString =>
      match acc with
      | EmptyString => []
      | _ => [acc]
      end
  | String c r =>
      if Ascii.eqb c LF then
        if pending_cr then read_from false acc r
        else (acc ++ String LF EmptyString) :: read_from false EmptyString r
      else if Ascii.eqb c CR then
        (acc ++ String LF EmptyString) :: read_from true EmptyString r
      else read_from false (acc ++ String c EmptyString) r
  end.

Definition read_lines (s : string) : list string :=
  read_from false EmptyString s.

(** [str(i)] for an [int]. *)
Definition str_int (z : Z) : string := NilZero.string_of_int (Z.to_int z).

(** The digits of an integer numeral, with the single underscores Python
    allows between two digits removed; [None] when the text is not of
    that shape. *)
Fixpoint group_digits (prev_digit : bool) (s : string) : option string :=
  match s with
  | EmptyString => if prev_digit then Some EmptyString else None
  | String c r =>
      if isdigit c then option_map (String c) (group_digits true r)
      else if Ascii.eqb c "_"%char && prev_digit then group_digits false r
      else None
  end.

Definition strip_sign (s : string) : bool * string :=
  match s with
  | String "-"%char r => (true, r)
  | String "+"%char r => (false, r)
  | _ => (false, s)
  end.

(** [int(s)] for a [str] in base 10; [None] stands for [ValueError].  The
    interpreter's limit on the number of digits, a setting of the run, is
    not part of it. *)
Definition py_int (s : string) : option Z :=
  let (neg, body) := strip_sign (strip_by int_isspace s) in
  match group_digits false body with
  | Some ds =>
      match NilEmpty.uint_of_string ds with
      | Some u => Some (if neg then - Z.of_uint u else Z.of_uint u)
      | None => None
      end
  | None => None
  end.

Fixpoint zeros (n : nat) : string :=
  match n with
  | O => EmptyString
  | S k => String "0"%char (zeros k)
  end.

Definition zero_pad (width : nat) (s : string) : string :=
  zeros (width - String.length s) ++ s.

(** [f"{i:05d}"]: the sign counts in the width. *)
Definition format_05d (i : Z) : string :=
  if i <? 0 then String "-"%char (zero_pad 4 (str_int (- i)))
  else zero_pad 5 (str_int i).

Definition NL : string := String LF EmptyString.

(** The double quote character, as a string. *)
Definition DQ : string := String (ascii_of_nat 34) EmptyString.

End Text.

Import Text.

(** ** Config *)

Definition BASE : string := "https://example.org/ldes/".
Definition COLL : string := BASE ++ "collection".
Definition VIEW : string := BASE ++ "page/0".
Definition TREE (name : string) : string := "https://w3id.org/tree/" ++ name.
Definition EX (name : string) : string := "https://example.org/vocab/" ++ name.
Definition MEM_BASE : string := BASE ++ "member/".

Definition RDF_type : string := "http://www.w3.org/1999/02/22-rdf-syntax-ns#type".
Definition RDFS_label : string := "http://www.w3.org/2000/01/rdf-schema#label".
Definition XSD_integer : string := "http://www.w3.org/2001/XMLSchema#integer".

Definition NUM_MEMBERS : Z := 10000.
Definition TRIPLES_PER_MEMBER_MIN : Z := 6.
Definition TRIPLES_PER_MEMBER_MAX : Z := 30.
Definition BATCH_SIZE : Z := 100.

(** ** Record model *)

Record Lit : Type := mkLit {
  lexical : string;
  datatype : option string;
  language : option string
}.

(** An rdflib term as [term_to_nq] tells them apart: a [URIRef], a
    [Literal], or any other object ([BNode] is the one the source names). *)
Inductive Term : Type :=
| URIRef (iri : string)
| Literal (l : Lit)
| BNode (id : string)
| OtherObject (repr : string).

Definition Quad : Type := (Term * Term * Term * Term)%type.

Definition subject (q : Quad) : Term := let '(s, _, _, _) := q in s.
Definition predicate (q : Quad) : Term := let '(_, p, _, _) := q in p.
Definition object (q : Quad) : Term := let '(_, _, o, _) := q in o.
Definition graph (q : Quad) : Term := let '(_, _, _, g) := q in g.

(** ** The insertion-ordered [dict] from member IRI to its quads *)

Definition Dict : Type := list (string * list Quad).

Definition dict_keys (d : Dict) : list string := map fst d.

Fixpoint dict_get (m : string) (d : Dict) : option (list Quad) :=
  match d with
  | [] => None
  | (k, v) :: r => if (k =? m)%string then Some v else dict_get m r
  end.

(** [d[m] = v]: a present key keeps its place, a new one goes last. *)
Fixpoint dict_set (m : string) (v : list Quad) (d : Dict) : Dict :=
  match d with
  | [] => [(m, v)]
  | (k, w) :: r =>
      if (k =? m)%string then (k, v) :: r else (k, w) :: dict_set m v r
  end.

(** ** Helpers *)

(** The part of Python's [random] module the generator calls. *)
Class Random (G : Type) : Type := {
  (** an index below [n], as [choice], [choices] and [randint] draw it *)
  randbelow : N -> G -> N * G;
  randbelow_lt : forall n g, (0 < n)%N -> (fst (randbelow n g) < n)%N;
  (** whether [random.random() < 0.5] *)
  random_lt_half : G -> bool * G
}.

Definition ascii_letters : list ascii :=
  list_ascii_of_string "abcdefghijklmnopqrstuvwxyzABCDEFGHIJKLMNOPQRSTUVWXYZ".

Section Generator.

Context {G : Type} `{Random G}.

(** What [random.randint(a, b)] returns on a range that is not empty. *)
Definition randint_draw (a b : Z) (g : G) : Z * G :=
  let (i, g') := randbelow (Z.to_N (b - a + 1)) g in (a + Z.of_N i, g').

(** [random.randint(a, b)]: an empty range raises. *)
Definition randint (a b : Z) (g : G) : result (Z * G) :=
  if b <? a then Raise (ValueError (EmptyRange a b))
  else Ok (randint_draw a b g).

Definition choice {A : Type} (dflt : A) (seq : list A) (g : G) : A * G :=
  let (i, g') := randbelow (N.of_nat (List.length seq)) g in
  (nth (N.to_nat i) seq dflt, g').

Fixpoint choices (population : list ascii) (k : nat) (g : G)
  : list ascii * G :=
  match k with
  | O => ([], g)
  | S k' =>
      let (c, g1) := choice zero population g in
      let (cs, g2) := choices population k' g1 in
      (c :: cs, g2)
  end.

Definition rand_label (n : nat) (g : G) : string * G :=
  let (cs, g') := choices ascii_letters n g in
  (string_of_list_ascii cs, g').

Definition make_member_iri (i : Z) : string := MEM_BASE ++ format_05d i.

(** The loop of extra triples of [member_quads]. *)
Fixpoint extra_quads (member : string) (k : nat) (g : G) : list Quad * G :=
  match k with
  | O => ([], g)
  | S k' =>
      let (name, g1) := choice EmptyString ["tag"; "attr"; "prop"; "rel"] g in
      let pred := URIRef (EX EmptyString ++ name) in
      let (coin, g2) := random_lt_half g1 in
      let (obj, g3) :=
        if coin then
          let (lbl, g') := rand_label 10 g2 in
          (Literal (mkLit lbl None None), g')
        else
          let (lbl, g') := rand_label 6 g2 in
          (URIRef (BASE ++ "res/" ++ lbl), g') in
      let (qs, g4) := extra_quads member k' g3 in
      ((URIRef member, pred, obj, URIRef member) :: qs, g4)
  end.

Definition member_quads (member : string) (n_triples : Z) (g : G)
  : list Quad * G :=
  let q1 := (URIRef member, URIRef RDF_type, URIRef (EX "Member"),
             URIRef member) in
  let q2 := (URIRef member, URIRef RDFS_label,
             Literal (mkLit ("Member " ++ last_field member "/"%char)
                            None None),
             URIRef member) in
  let (v, g1) := randint_draw 0 1000000 g in
  let q3 := (URIRef member, URIRef (EX "value"),
             Literal (mkLit (str_int v) (Some XSD_integer) None),
             URIRef member) in
  let (extra, g2) := extra_quads member (Z.to_nat (Z.max 0 (n_triples - 3))) g1 in
  (q1 :: q2 :: q3 :: extra, g2).

(** Step 1 of [main] for bounds [tmin <= tmax], where [randint] does not
    raise: members [first], [first + 1], ... *)
Fixpoint generate_from (count : nat) (first : Z) (tmin tmax : Z)
         (quads_by_member : Dict) (g : G) : Dict * G :=
  match count with
  | O => (quads_by_member, g)
  | S count' =>
      let m := make_member_iri first in
      let (n, g1) := randint_draw tmin tmax g in
      let (qs, g2) := member_quads m n g1 in
      generate_from count' (first + 1) tmin tmax
                    (dict_set m qs quads_by_member) g2
  end.

Definition generate (num_members : nat) (tmin tmax : Z) (g : G) : Dict * G :=
  generate_from num_members 0 tmin tmax [] g.

(** Step 1 of [main] for any bounds: [randint] raises on the first member
    when [tmax < tmin]. *)
Fixpoint main_generate_from (count : nat) (first : Z) (tmin tmax : Z)
         (quads_by_member : Dict) (g : G) : result (Dict * G) :=
  match count with
  | O => Ok (quads_by_member, g)
  | S count' =>
      let m := make_member_iri first in
      ng <- randint tmin tmax g ;;
      let (qs, g2) := member_quads m (fst ng) (snd ng) in
      main_generate_from count' (first + 1) tmin tmax
                         (dict_set m qs quads_by_member) g2
  end.

Definition main_generate (num_members : nat) (tmin tmax : Z) (g : G)
  : result (Dict * G) :=
  main_generate_from num_members 0 tmin tmax [] g.

End Generator.

(** ** Profile writer *)

(** [repr(t)] for a term that is neither a [URIRef] nor a [Literal]. *)
Definition other_repr (t : Term) : string :=
  match t with
  | BNode id => "rdflib.term.BNode('" ++ id ++ "')"
  | OtherObject repr => repr
  | _ => EmptyString
  end.

Definition term_to_nq (t : Term) : result string :=
  match t with
  | URIRef iri => Ok ("<" ++ iri ++ ">")
  | Literal l =>
      if match datatype l with
         | Some dt => (dt =? XSD_integer)%string
         | None => false
         end
      then
        match py_int (lexical l) with
        | Some z => Ok (DQ ++ str_int z ++ DQ ++ "^^<" ++ XSD_integer ++ ">")
        | None =>
            Raise (ValueError (InvalidIntLiteral (lexical l)))
        end
      else
        match language l with
        | Some (String c r) =>
            Ok (DQ ++ lexical l ++ DQ ++ "@" ++ String c r)
        | _ => Ok (DQ ++ lexical l ++ DQ)
        end
  | _ =>
      Raise (ValueError
               (Text ("Unsupported term type in this generator: "
                      ++ other_repr t)))
  end.

(** The prefix [parse_tree_profile_batches] tests a line for. *)
Definition MARKER_PREFIX : string := "<" ++ COLL ++ "> <" ++ TREE "member" ++ "> <".

(** The hypermedia block, one entry per [f.write]. *)
Definition hypermedia_block : list string :=
  [ "<> <" ++ RDF_type ++ "> <" ++ TREE "Node" ++ "> ." ++ NL;
    "<" ++ COLL ++ "> <" ++ RDF_type ++ "> <" ++ TREE "Collection" ++ "> ." ++ NL;
    "<" ++ COLL ++ "> <" ++ TREE "view" ++ "> <> ." ++ NL;
    "<> <" ++ TREE "relation" ++ "> _:r1 ." ++ NL;
    "_:r1 <" ++ RDF_type ++ "> <" ++ TREE "GreaterThanOrEqualToRelation" ++ "> ." ++ NL;
    "_:r1 <" ++ TREE "node" ++ "> <" ++ BASE ++ "page/1> ." ++ NL;
    "_:r1 <" ++ TREE "value" ++ "> " ++ DQ ++ "0" ++ DQ ++ "^^<" ++ XSD_integer ++ "> ." ++ NL;
    "_:r1 <" ++ TREE "path" ++ "> <" ++ EX "value" ++ "> ." ++ NL ].

Definition marker_line (m : string) : string :=
  "<" ++ COLL ++ "> <" ++ TREE "member" ++ "> <" ++ m ++ "> ." ++ NL.

(** The text of one statement line, terminator included. *)
Definition quad_line (q : Quad) : result string :=
  let '(s, p, o, g) := q in
  s_str <- term_to_nq s ;;
  p_str <- term_to_nq p ;;
  o_str <- term_to_nq o ;;
  g_str <- term_to_nq g ;;
  Ok (s_str ++ " " ++ p_str ++ " " ++ o_str ++ " " ++ g_str ++ " ." ++ NL).

(** The inner loop: [f] is the text written to the file so far. *)
Fixpoint write_quads (qs : list Quad) (f : string) : result string :=
  match qs with
  | [] => Ok f
  | q :: r => l <- quad_line q ;; write_quads r (f ++ l)
  end.

(** The loop over [quads_by_member.keys()]. *)
Fixpoint write_members (keys : list string) (quads_by_member : Dict)
         (f : string) : result string :=
  match keys with
  | [] => Ok f
  | m :: ks =>
      let f1 := f ++ marker_line m in
      match dict_get m quads_by_member with
      | None => Raise (KeyError m)
      | Some qs =>
          f2 <- write_quads qs f1 ;;
          write_members ks quads_by_member f2
      end
  end.

(** The text of the page file, or the exception that aborts the write. *)
Definition write_tree_profile_page_gz (quads_by_member : Dict) : result string :=
  write_members (dict_keys quads_by_member) quads_by_member
                (String.concat EmptyString hypermedia_block).

(** ** Benchmarking *)

Record BatchStat : Type := mkBatchStat {
  batch_index : Z;
  members_in_batch : Z;
  quads_in_batch : Z;
  seconds : Z
}.

(** [time.perf_counter]: the reading of the k-th call of a run, in ticks
    of the clock. *)
Definition Clock : Type := nat -> Z.

(** The local variables of [parse_tree_profile_batches], with the number
    of clock calls made so far. *)
Record PState : Type := mkPState {
  st_batch_stats : list BatchStat;
  st_batch_index : Z;
  st_current_members : Z;
  st_current_quads : Z;
  st_t0_batch : option Z;
  st_in_members : bool;
  st_current_member : option string;
  st_clock_calls : nat
}.

Definition init_state : PState :=
  mkPState [] 0 0 0 None false None 0.

Section Parser.

Variable perf_counter : Clock.
Variable batch_size : Z.

Definition flush_batch (st : PState) : result PState :=
  if st_current_members st =? 0 then Ok st
  else
    match st_t0_batch st with
    | None => Raise TypeError
    | Some t0 =>
        let dt := perf_counter (st_clock_calls st) - t0 in
        Ok (mkPState
              (st_batch_stats st ++
                 [mkBatchStat (st_batch_index st) (st_current_members st)
                              (st_current_quads st) dt])%list
              (st_batch_index st + 1) 0 0 None
              (st_in_members st) (st_current_member st)
              (S (st_clock_calls st)))
    end.

(** One iteration of the loop over the lines of the file. *)
Definition parse_line (raw : string) (st : PState) : result PState :=
  let line := strip raw in
  if (line =? EmptyString)%string || startswith line "#" then Ok st
  else if startswith line MARKER_PREFIX then
    match nth_error (split line " "%char 2) 2 with
    | None => Raise IndexError
    | Some member =>
        let '(t0, calls) :=
          match st_t0_batch st with
          | None => (Some (perf_counter (st_clock_calls st)),
                     S (st_clock_calls st))
          | Some t => (Some t, st_clock_calls st)
          end in
        let st' := mkPState (st_batch_stats st) (st_batch_index st)
                            (st_current_members st + 1)
                            (st_current_quads st) t0 true (Some member)
                            calls in
        if st_current_members st' =? batch_size then flush_batch st'
        else Ok st'
    end
  else if st_in_members st && endswith line " ." then
    Ok (mkPState (st_batch_stats st) (st_batch_index st)
                 (st_current_members st) (st_current_quads st + 1)
                 (st_t0_batch st) (st_in_members st)
                 (st_current_member st) (st_clock_calls st))
  else Ok st.

Fixpoint parse_lines (lines : list string) (st : PState) : result PState :=
  match lines with
  | [] => Ok st
  | l :: r => st' <- parse_line l st ;; parse_lines r st'
  end.

End Parser.

(** [content] is the text of the file at [path_gz]; [perf_counter] is
    the clock of the run. *)
Definition parse_tree_profile_batches (perf_counter : Clock)
           (content : string) (batch_size : Z) : result (list BatchStat) :=
  st <- parse_lines perf_counter batch_size (read_lines content) init_state ;;
  st' <- flush_batch perf_counter st ;;
  Ok (st_batch_stats st').

(** ** Sample data for running the model *)

Definition sample_next (g : N) : N :=
  ((g * 1103515245 + 12345) mod 2147483648)%N.

(** A linear congruential generator, in place of Python's. *)
#[export] Instance sample_random : Random N := {|
  randbelow := fun n g => ((sample_next g / 65536) mod n, sample_next g)%N;
  randbelow_lt := fun n g Hn =>
    N.mod_lt (sample_next g / 65536) n (proj2 (N.neq_0_lt_0 n) Hn);
  random_lt_half := fun g => (N.even (sample_next g / 65536), sample_next g)
|}.

(** A clock that advances ten ticks between two readings. *)
Definition sample_clock : Clock := fun k => Z.of_nat k * 10.

(** The first [k] quads [member_quads] makes for member [i]. *)
Definition sample_quads (i : Z) (k : nat) : list Quad :=
  firstn k (fst (member_quads (make_member_iri i) (Z.of_nat k) 42%N)).

(** Three groups, of 3, 5 and 2 statements. *)
Definition scenario_dict : Dict :=
  [ (make_member_iri 0, sample_quads 0 3);
    (make_member_iri 1, sample_quads 1 5);
    (make_member_iri 2, sample_quads 2 2) ].

(** One group whose only statement has the collection as subject and
    [tree:member] as predicate: its line starts like a marker line. *)
Definition injected_dict : Dict :=
  [ (make_member_iri 0,
     [ (URIRef COLL, URIRef (TREE "member"), URIRef (make_member_iri 1),
        URIRef (make_member_iri 0)) ]) ].

(** ** Predicates and views the statements use *)

(** A character that is neither LF nor CR. *)
Definition not_eol (c : ascii) : bool :=
  negb (Ascii.eqb c LF) && negb (Ascii.eqb c CR).

Definition no_newline (s : string) : bool := all_chars not_eol s.

(** A complete line of a file: text without LF or CR, then LF. *)
Definition is_line (l : string) : Prop :=
  exists body, l = body ++ NL /\ no_newline body = true.

(** What [parse_line] takes a line for. *)
Inductive LineKind : Type :=
| Skipped        (* blank, or a comment *)
| MarkerLine     (* starts with the marker prefix *)
| StmtLine       (* ends in " ." *)
| Unrecognised.  (* none of these *)

Definition classify (raw : string) : LineKind :=
  let line := strip raw in
  if (line =? EmptyString)%string || startswith line "#" then Skipped
  else if startswith line MARKER_PREFIX then MarkerLine
  else if endswith line " ." then StmtLine
  else Unrecognised.

(** The parser's test for the start of a member group. *)
Definition is_marker (raw : string) : bool :=
  startswith (strip raw) MARKER_PREFIX.

(** A line the parser passes over: blank, a comment, or neither a marker
    nor of the shape of a terminated statement. *)
Definition skippable (raw : string) : bool :=
  let line := strip raw in
  (line =? EmptyString)%string || startswith raw "#" || startswith line "#"
  || (negb (startswith line MARKER_PREFIX) && negb (endswith line " .")).

(** A text that stops at the end of a line. *)
Definition line_terminated (s : string) : Prop :=
  s = EmptyString \/ exists p, s = p ++ NL.

(** The counts of a batch record: index, members, quads. *)
Definition Counts : Type := (Z * Z * Z)%type.

Definition stat_counts (b : BatchStat) : Counts :=
  (batch_index b, members_in_batch b, quads_in_batch b).

Definition counts_members (c : Counts) : Z := snd (fst c).
Definition counts_quads (c : Counts) : Z := snd c.

(** The counters of a parser state, without clock and member name. *)
Record AState : Type := mkAState {
  a_stats : list Counts;
  a_index : Z;
  a_members : Z;
  a_quads : Z;
  a_in : bool
}.

Definition abs (st : PState) : AState :=
  mkAState (map stat_counts (st_batch_stats st)) (st_batch_index st)
           (st_current_members st) (st_current_quads st) (st_in_members st).

Definition a_init : AState := mkAState [] 0 0 0 false.

Definition a_flush (a : AState) : AState :=
  if a_members a =? 0 then a
  else mkAState (a_stats a ++ [(a_index a, a_members a, a_quads a)])%list
                (a_index a + 1) 0 0 (a_in a).

Definition a_step (batch_size : Z) (k : LineKind) (a : AState) : AState :=
  match k with
  | Skipped | Unrecognised => a
  | MarkerLine =>
      let a' := mkAState (a_stats a) (a_index a) (a_members a + 1)
                         (a_quads a) true in
      if a_members a' =? batch_size then a_flush a' else a'
  | StmtLine =>
      if a_in a then
        mkAState (a_stats a) (a_index a) (a_members a) (a_quads a + 1) (a_in a)
      else a
  end.

Definition a_run (batch_size : Z) (ks : list LineKind) (a : AState) : AState :=
  fold_left (fun a k => a_step batch_size k a) ks a.

Definition abs_parse (batch_size : Z) (ks : list LineKind) : list Counts :=
  a_stats (a_flush (a_run batch_size ks a_init)).

(** A batch with members has its start time. *)
Definition timed (st : PState) : Prop :=
  st_current_members st <> 0 -> st_t0_batch st <> None.

(** What the parser returns for a stream of groups with [counts]
    statement lines each, started with [cm] members and [cq] quads in the
    open batch [idx]: the batch is closed at its last marker, before the
    lines of that group are read. *)
Fixpoint group_batches (batch_size : Z) (counts : list Z) (idx cm cq : Z)
  : list Counts :=
  match counts with
  | [] => if cm =? 0 then [] else [(idx, cm, cq)]
  | n :: rest =>
      if cm + 1 =? batch_size
      then (idx, cm + 1, cq) :: group_batches batch_size rest (idx + 1) 0 n
      else group_batches batch_size rest idx (cm + 1) (cq + n)
  end.

Definition zsum (l : list Z) : Z := fold_right Z.add 0 l.

(** The line kinds of one group: its marker, then [n] statement lines. *)
Definition group_kinds (n : nat) : list LineKind :=
  MarkerLine :: repeat StmtLine n.

(** A term the writer renders, and on one line. *)
Definition clean_term (t : Term) : bool :=
  match term_to_nq t with
  | Ok r => no_newline r
  | Raise _ => false
  end.

(** A quad whose four terms are clean and whose line does not start with
    the marker prefix. *)
Definition clean_quad (q : Quad) : bool :=
  let '(s, p, o, g) := q in
  clean_term s && clean_term p && clean_term o && clean_term g &&
  match quad_line q with
  | Ok l => negb (startswith l MARKER_PREFIX)
  | Raise _ => false
  end.

(** Data whose keys and quads are clean; generated data are. *)
Definition clean_dict (d : Dict) : bool :=
  forallb (fun kv => no_newline (fst kv) && forallb clean_quad (snd kv)) d.

(** The line written for a quad the writer renders. *)
Definition quad_line_text (q : Quad) : string :=
  match quad_line q with
  | Ok l => l
  | Raise _ => EmptyString
  end.

(** The groups in the order the writer visits them, each key with the
    quads the dictionary holds for it. *)
Definition written_groups (d : Dict) : list (string * list Quad) :=
  map (fun m => (m, match dict_get m d with
                    | Some qs => qs
                    | None => []
                    end)) (dict_keys d).

(** The lines written for one group, and for the whole page. *)
Definition group_lines (g : string * list Quad) : list string :=
  marker_line (fst g) :: map quad_line_text (snd g).

Definition page_lines (d : Dict) : list string :=
  (hypermedia_block ++ flat_map group_lines (written_groups d))%list.

(** The number of statements of each written group, in order. *)
Definition statement_counts (d : Dict) : list Z :=
  map (fun g => Z.of_nat (List.length (snd g))) (written_groups d).

(** [is_line], decided. *)
Fixpoint is_lineb (s : string) : bool :=
  match s with
  | EmptyString => false
  | String c EmptyString => Ascii.eqb c LF
  | String c r => not_eol c && is_lineb r
  end.

Definition clean_group (g : string * list Quad) : Prop :=
  no_newline (fst g) = true /\ forallb clean_quad (snd g) = true.

(** A key made from [MEM_BASE]. *)
Definition member_key (kv : string * list Quad) : Prop :=
  exists x, fst kv = MEM_BASE ++ x.

Definition iri_or_literal (t : Term) : bool :=
  match t with
  | URIRef _ | Literal _ => true
  | _ => false
  end.

(** No literal with both a datatype and a language tag. *)
Definition tags_exclusive (t : Term) : bool :=
  match t with
  | Literal l =>
      match datatype l, language l with
      | Some _, Some _ => false
      | _, _ => true
      end
  | _ => true
  end.

(** What C9 says of a generated quad. *)
Definition generated_quad_ok (member : string) (q : Quad) : Prop :=
  subject q = URIRef member
  /\ graph q = URIRef member
  /\ (exists p, predicate q = URIRef p)
  /\ iri_or_literal (object q) = true
  /\ Forall (fun t => tags_exclusive t = true)
            [subject q; predicate q; object q; graph q].

(** ** Views of an arbitrary stream *)

(** The statement lines up to the next marker. *)
Fixpoint leading_stmts (ks : list LineKind) : nat :=
  match ks with
  | [] => 0
  | StmtLine :: r => S (leading_stmts r)
  | MarkerLine :: _ => 0
  | _ :: r => leading_stmts r
  end.

(** For each marker of a stream, the statement lines between it and the
    next marker. *)
Fixpoint group_sizes (ks : list LineKind) : list nat :=
  match ks with
  | [] => []
  | MarkerLine :: r => leading_stmts r :: group_sizes r
  | _ :: r => group_sizes r
  end.

Definition stream_counts (content : string) : list Z :=
  map Z.of_nat (group_sizes (map classify (read_lines content))).

(** A clock that never runs backwards. *)
Definition monotone (clk : Clock) : Prop :=
  forall i j : nat, (i <= j)%nat -> clk i <= clk j.

(** The seconds of the k-th batch of a run: the clock is read when the
    first member of a batch arrives and when the batch is flushed. *)
Definition batch_seconds (clk : Clock) (k : nat) : Z :=
  clk (2 * k + 1)%nat - clk (2 * k)%nat.

(** The clock calls and start time of a parser state agree with the
    batches recorded so far. *)
Definition clocked (clk : Clock) (st : PState) : Prop :=
  let n := List.length (st_batch_stats st) in
  map seconds (st_batch_stats st) = map (batch_seconds clk) (seq 0 n)
  /\ match st_t0_batch st with
     | None => st_clock_calls st = (2 * n)%nat
     | Some t => st_clock_calls st = (2 * n + 1)%nat /\ t = clk (2 * n)%nat
     end.

(** ** The batches of the Jelly path *)

(** The local variables of the loop of [parse_jelly_batches], with the
    number of clock calls made so far. *)
Record JState : Type := mkJState {
  j_batch_stats : list BatchStat;
  j_batch_index : Z;
  j_current_members : Z;
  j_current_quads : Z;
  j_t0_batch : option Z;
  j_clock_calls : nat
}.

(** One iteration of [for g in ds.contexts()], for a graph of [q]
    triples. *)
Definition jelly_step (perf_counter : Clock) (batch_size : Z) (q : Z)
           (st : JState) : result JState :=
  let '(t0, calls) :=
    match j_t0_batch st with
    | None => (perf_counter (j_clock_calls st), S (j_clock_calls st))
    | Some t => (t, j_clock_calls st)
    end in
  let members := j_current_members st + 1 in
  let quads := j_current_quads st + q in
  if members =? batch_size then
    let dt := perf_counter calls - t0 in
    Ok (mkJState (j_batch_stats st
                  ++ [mkBatchStat (j_batch_index st) members quads dt])%list
                 (j_batch_index st + 1) 0 0 None (S calls))
  else Ok (mkJState (j_batch_stats st) (j_batch_index st) members quads
                    (Some t0) calls).

Fixpoint jelly_loop (perf_counter : Clock) (batch_size : Z)
         (graph_sizes : list Z) (st : JState) : result JState :=
  match graph_sizes with
  | [] => Ok st
  | q :: r =>
      st' <- jelly_step perf_counter batch_size q st ;;
      jelly_loop perf_counter batch_size r st'
  end.

(** [parse_jelly_batches]: loading the file is rdflib's and the Jelly
    codec's; the dataset it yields is given by [graph_sizes], the [len(g)]
    of the graphs in the order [ds.contexts()] hands them over.  The clock
    is read before and after the load. *)
Definition parse_jelly_batches (perf_counter : Clock)
           (graph_sizes : list Z) (batch_size : Z) : result (list BatchStat) :=
  let load_time := perf_counter 1%nat - perf_counter 0%nat in
  st <- jelly_loop perf_counter batch_size graph_sizes
                   (mkJState [] 0 0 0 None 2) ;;
  stats <- (if 0 <? j_current_members st then
              match j_t0_batch st with
              | None => Raise TypeError
              | Some t0 =>
                  Ok (j_batch_stats st
                      ++ [mkBatchStat (j_batch_index st)
                                      (j_current_members st)
                                      (j_current_quads st)
                                      (perf_counter (j_clock_calls st) - t0)])%list
              end
            else Ok (j_batch_stats st)) ;;
  Ok (mkBatchStat (-1) 0 0 load_time :: stats).

(** The counts of the Jelly batches for graphs of [sizes] triples, started
    with [cm] members and [cq] quads in the open batch [idx]. *)
Fixpoint jelly_counts (batch_size : Z) (sizes : list Z) (idx cm cq : Z)
  : list Counts :=
  match sizes with
  | [] => if 0 <? cm then [(idx, cm, cq)] else []
  | n :: rest =>
      if cm + 1 =? batch_size
      then (idx, cm + 1, cq + n) :: jelly_counts batch_size rest (idx + 1) 0 0
      else jelly_counts batch_size rest idx (cm + 1) (cq + n)
  end.

(** ** The report *)

(** [summarize]: the number of leading records left out of the totals. *)
Definition summarize_offset (stats : list BatchStat) : nat :=
  match stats with
  | b :: _ => if batch_index b =? -1 then 1%nat else 0%nat
  | [] => 0%nat
  end.

(** [summarize]: the totals of members, quads and time it prints, [None]
    when it prints none.  The throughput lines, quotients of floats, are
    left out. *)
Definition summarize_totals (stats : list BatchStat) : option (Z * Z * Z) :=
  let offset := summarize_offset stats in
  if (offset <? List.length stats)%nat then
    let rest := skipn offset stats in
    Some (zsum (map members_in_batch rest), zsum (map quads_in_batch rest),
          zsum (map seconds rest))
  else None.

(** [summarize]: the batches it shows as a sample. *)
Definition summarize_sample (stats : list BatchStat) : list BatchStat :=
  firstn 3 (skipn (summarize_offset stats) stats).

(** ** Further views of the writer and of [main] *)

(** A quad all four terms of which [term_to_nq] renders. *)
Definition renders (q : Quad) : bool :=
  match quad_line q with
  | Ok _ => true
  | Raise _ => false
  end.

Definition all_render (d : Dict) : bool :=
  forallb (fun grp => forallb renders (snd grp)) (written_groups d).

(** A text with every LF turned into CR LF. *)
Fixpoint crlf (s : string) : string :=
  match s with
  | EmptyString => EmptyString
  | String c r =>
      if Ascii.eqb c LF then String CR (String LF (crlf r))
      else String c (crlf r)
  end.

Definition no_cr (s : string) : bool :=
  all_chars (fun c => negb (Ascii.eqb c CR)) s.

(** Steps 1, 2 and 4 of [main], from the state [g] of the random source
    after [random.seed]: generate, write the page, parse it. *)
Definition main_tree_stats {G : Type} `{Random G} (g : G)
           (perf_counter : Clock) : result (list BatchStat) :=
  let quads_by_member :=
    fst (generate (Z.to_nat NUM_MEMBERS) TRIPLES_PER_MEMBER_MIN
                  TRIPLES_PER_MEMBER_MAX g) in
  content <- write_tree_profile_page_gz quads_by_member ;;
  parse_tree_profile_batches perf_counter content BATCH_SIZE.

(** A group made by [member_quads] for its key, with [n_triples] drawn
    between the two bounds. *)
Definition generated_item {G : Type} `{Random G} (tmin tmax : Z)
           (kv : string * list Quad) : Prop :=
  exists (n : Z) (g : G),
    snd kv = fst (member_quads (fst kv) n g)
    /\ (tmin <= tmax -> tmin <= n <= tmax).

(** * Properties *)

(** ** Text lemmas *)

Module TextFacts.

Lemma append_nil_r (s : string) : s ++ EmptyString = s.
Proof. induction s as [|c s IH]; simpl; [reflexivity | now rewrite IH]. Qed.

Lemma append_assoc (a b c : string) : (a ++ b) ++ c = a ++ (b ++ c).
Proof. induction a as [|x a IH]; simpl; [reflexivity | now rewrite IH]. Qed.

Lemma all_chars_app p a b :
  all_chars p (a ++ b) = all_chars p a && all_chars p b.
Proof.
  induction a as [|x a IH]; simpl; [reflexivity|].
  now rewrite IH, andb_assoc.
Qed.

Lemma startswith_app (p r : string) : startswith (p ++ r) p = true.
Proof.
  induction p as [|c p IH]; simpl; [reflexivity|].
  now rewrite Ascii.eqb_refl.
Qed.

Lemma startswith_inv (s p : string) :
  startswith s p = true -> exists r, s = p ++ r.
Proof.
  revert s. induction p as [|c p IH]; intros s Hp; simpl in *.
  - now exists s.
  - destruct s as [|d s]; [discriminate|].
    apply andb_prop in Hp as [Hc Hp]. apply Ascii.eqb_eq in Hc as ->.
    destruct (IH _ Hp) as [r ->]. now exists r.
Qed.

Lemma startswith_weaken (s t p : string) :
  startswith s p = true -> startswith (s ++ t) p = true.
Proof.
  intros Hp. destruct (startswith_inv _ _ Hp) as [r ->].
  rewrite append_assoc. apply startswith_app.
Qed.

Lemma endswith_app (x p : string) : endswith (x ++ p) p = true.
Proof.
  induction x as [|c x IH]; simpl.
  - destruct p; cbn [append endswith]; now rewrite String.eqb_refl.
  - rewrite IH. apply orb_true_r.
Qed.

Lemma lstrip_nonspace c r :
  isspace c = false -> lstrip (String c r) = String c r.
Proof. intros Hc. simpl. now rewrite Hc. Qed.

Lemma rstrip_app (x y : string) :
  rstrip y <> EmptyString -> rstrip (x ++ y) = x ++ rstrip y.
Proof.
  intros Hy. induction x as [|c x IH]; simpl; [reflexivity|].
  rewrite IH. destruct (x ++ rstrip y) eqn:E; [|reflexivity].
  destruct x; simpl in E; [congruence | discriminate].
Qed.

Lemma rstrip_nonspace (s : string) :
  all_chars (fun c => negb (isspace c)) s = true -> rstrip s = s.
Proof.
  induction s as [|c s IH]; simpl; [reflexivity|].
  intros Hs. apply andb_prop in Hs as [Hc Hs]. rewrite (IH Hs).
  destruct s; [|reflexivity].
  apply negb_true_iff in Hc. now rewrite Hc.
Qed.

Lemma strip_nonspace (s : string) :
  all_chars (fun c => negb (isspace c)) s = true -> strip s = s.
Proof.
  intros Hs. unfold strip.
  destruct s as [|c s]; [reflexivity|].
  pose proof Hs as Hs'. simpl in Hs'. apply andb_prop in Hs' as [Hc _].
  apply negb_true_iff in Hc. rewrite (lstrip_nonspace _ _ Hc).
  now apply rstrip_nonspace.
Qed.

Lemma read_from_line (body : string) :
  no_newline body = true ->
  forall acc rest,
    read_from false acc (body ++ NL ++ rest)
    = (acc ++ body ++ NL) :: read_from false EmptyString rest.
Proof.
  unfold no_newline.
  induction body as [|c body IH]; intros Hb acc rest.
  - simpl. reflexivity.
  - simpl in Hb. apply andb_prop in Hb as [Hc Hb].
    unfold not_eol in Hc. apply andb_prop in Hc as [H1 H2].
    apply negb_true_iff in H1, H2.
    cbn [append read_from]. rewrite H1, H2.
    rewrite (IH Hb). now rewrite append_assoc.
Qed.

Lemma read_from_lines (ls : list string) (rest : string) :
  Forall is_line ls ->
  read_from false EmptyString (String.concat EmptyString ls ++ rest)
  = (ls ++ read_from false EmptyString rest)%list.
Proof.
  assert (Hc : forall l ls', String.concat EmptyString (l :: ls')
                             = l ++ String.concat EmptyString ls').
  { intros l [|l' ls']; simpl; [now rewrite append_nil_r | reflexivity]. }
  induction 1 as [|l ls' [body [-> Hb]] _ IH].
  - reflexivity.
  - rewrite Hc, !append_assoc, (read_from_line _ Hb). simpl.
    now rewrite IH.
Qed.

(** Reading a text whose first part ends in LF: the lines of the first
    part, then the lines of the rest. *)
Lemma read_from_app (p rest : string) :
  forall pend acc,
    (pend = true -> acc = EmptyString) ->
    read_from pend acc ((p ++ NL) ++ rest)
    = (read_from pend acc (p ++ NL) ++ read_from false EmptyString rest)%list.
Proof.
  induction p as [|c p IH]; intros pend acc Hpa.
  - simpl. destruct pend.
    + rewrite (Hpa eq_refl). reflexivity.
    + reflexivity.
  - cbn [append read_from].
    destruct (Ascii.eqb c LF).
    + destruct pend.
      * apply IH. intros Hx; discriminate Hx.
      * simpl. f_equal. apply IH. intros Hx; discriminate Hx.
    + destruct (Ascii.eqb c CR).
      * simpl. f_equal. apply IH. reflexivity.
      * apply IH. intros Hx; discriminate Hx.
Qed.

Lemma read_lines_app (p rest : string) :
  read_lines ((p ++ NL) ++ rest)
  = (read_lines (p ++ NL) ++ read_lines rest)%list.
Proof. apply read_from_app. intros Hx; discriminate Hx. Qed.

End TextFacts.

Import TextFacts.

(** ** The parser as a machine over line kinds *)

Section Simulation.

Variable perf_counter : Clock.
Variable batch_size : Z.

Lemma split_from_cons acc sep s :
  exists h t, split_from acc sep 0 s = h :: t.
Proof.
  revert acc. induction s as [|c s IH]; intros acc; simpl.
  - now exists acc, [].
  - destruct (Ascii.eqb c sep); apply IH.
Qed.

Lemma marker_has_member (line : string) :
  startswith line MARKER_PREFIX = true ->
  exists member, nth_error (split line " "%char 2) 2 = Some member.
Proof.
  intros Hp. destruct (startswith_inv _ _ Hp) as [r ->].
  unfold split. cbn.
  destruct (split_from_cons "<" " "%char r) as [h [t ->]].
  now exists h.
Qed.

Lemma flush_batch_sim (st : PState) :
  timed st ->
  exists st', flush_batch perf_counter st = Ok st'
              /\ timed st' /\ abs st' = a_flush (abs st).
Proof.
  intros Ht. unfold flush_batch, a_flush. cbn [abs a_members].
  destruct (st_current_members st =? 0) eqn:E.
  - now exists st.
  - apply Z.eqb_neq in E.
    destruct (st_t0_batch st) as [t0|] eqn:Et.
    + eexists. split; [reflexivity|]. split.
      * intros Hm. now cbn in Hm.
      * unfold abs. cbn. now rewrite map_app.
    + now destruct (Ht E).
Qed.

Lemma parse_line_sim (raw : string) (st : PState) :
  timed st ->
  exists st', parse_line perf_counter batch_size raw st = Ok st'
              /\ timed st'
              /\ abs st' = a_step batch_size (classify raw) (abs st).
Proof.
  intros Ht. unfold parse_line, classify.
  destruct ((strip raw =? EmptyString)%string || startswith (strip raw) "#").
  { now exists st. }
  destruct (startswith (strip raw) MARKER_PREFIX) eqn:Em.
  - destruct (marker_has_member _ Em) as [member ->].
    set (tc := match st_t0_batch st with
               | None => _
               | Some t => _
               end).
    assert (Htc : fst tc <> None) by (subst tc; now destruct (st_t0_batch st)).
    destruct tc as [t0 calls]. cbn [fst] in Htc.
    cbn [st_current_members a_step abs a_members].
    destruct (st_current_members st + 1 =? batch_size).
    + match goal with
      | |- context [flush_batch _ ?s] =>
          destruct (flush_batch_sim s) as [st' [Hf [Ht' Ha]]]
      end.
      { intros _. exact Htc. }
      exists st'. now repeat split.
    + eexists. split; [reflexivity|]. split; [|reflexivity].
      intros _. exact Htc.
  - destruct (endswith (strip raw) " ."); rewrite ?andb_true_r, ?andb_false_r.
    + destruct (st_in_members st) eqn:Ei; eexists; (split; [reflexivity|]);
        (split; [exact Ht |]); unfold abs; cbn; now rewrite Ei.
    + exists st. now repeat split.
Qed.

Lemma parse_lines_sim (lines : list string) :
  forall st,
    timed st ->
    exists st', parse_lines perf_counter batch_size lines st = Ok st'
                /\ timed st'
                /\ abs st' = a_run batch_size (map classify lines) (abs st).
Proof.
  induction lines as [|l lines IH]; intros st Ht.
  - now exists st.
  - destruct (parse_line_sim l st Ht) as [st1 [H1 [Ht1 Ha1]]].
    destruct (IH st1 Ht1) as [st2 [H2 [Ht2 Ha2]]].
    exists st2. cbn [parse_lines]. rewrite H1. cbn [bind].
    repeat split; [exact H2 | exact Ht2 |].
    rewrite Ha2, Ha1. reflexivity.
Qed.

(** The parser returns, and its counts are those of the machine. *)
Lemma parse_counts (content : string) :
  exists stats,
    parse_tree_profile_batches perf_counter content batch_size = Ok stats
    /\ map stat_counts stats
       = abs_parse batch_size (map classify (read_lines content)).
Proof.
  unfold parse_tree_profile_batches, abs_parse.
  destruct (parse_lines_sim (read_lines content) init_state)
    as [st [Hp [Ht Ha]]].
  { intros Hm. now cbn in Hm. }
  destruct (flush_batch_sim st Ht) as [st' [Hf [_ Ha']]].
  exists (st_batch_stats st'). rewrite Hp. cbn [bind]. rewrite Hf.
  split; [reflexivity|].
  change (map stat_counts (st_batch_stats st')) with (a_stats (abs st')).
  rewrite Ha', Ha. reflexivity.
Qed.

End Simulation.

(** ** The batches of a stream of groups *)

Section Groups.

Variable batch_size : Z.
Hypothesis batch_size_pos : 1 <= batch_size.

Lemma a_run_app ks1 ks2 a :
  a_run batch_size (ks1 ++ ks2) a
  = a_run batch_size ks2 (a_run batch_size ks1 a).
Proof. apply fold_left_app. Qed.

Lemma a_run_cons k ks a :
  a_run batch_size (k :: ks) a
  = a_run batch_size ks (a_step batch_size k a).
Proof. reflexivity. Qed.

Lemma a_run_stmts_closed n a :
  a_in a = false -> a_run batch_size (repeat StmtLine n) a = a.
Proof.
  intros Hin. induction n as [|n IH]; [reflexivity|].
  cbn [repeat a_run fold_left a_step]. rewrite Hin. exact IH.
Qed.

Lemma a_run_stmts_open n :
  forall a,
    a_in a = true ->
    a_run batch_size (repeat StmtLine n) a
    = mkAState (a_stats a) (a_index a) (a_members a)
               (a_quads a + Z.of_nat n) true.
Proof.
  induction n as [|n IH]; intros a Hin.
  - cbn. destruct a; cbn in *. subst. f_equal. lia.
  - cbn [repeat a_run fold_left a_step]. rewrite Hin.
    unfold a_run in IH. rewrite IH by reflexivity.
    cbn. f_equal. lia.
Qed.

Lemma a_run_groups (ns : list nat) :
  forall a,
    0 <= a_members a ->
    a_stats (a_flush (a_run batch_size (flat_map group_kinds ns) a))
    = (a_stats a ++
       group_batches batch_size (map Z.of_nat ns)
                     (a_index a) (a_members a) (a_quads a))%list.
Proof.
  induction ns as [|n ns IH]; intros a Hm.
  - cbn. unfold a_flush. destruct (a_members a =? 0); cbn.
    + now rewrite app_nil_r.
    + reflexivity.
  - cbn [flat_map group_kinds app]. rewrite a_run_cons, a_run_app.
    cbn [a_step a_members map group_batches].
    destruct (a_members a + 1 =? batch_size) eqn:E.
    + unfold a_flush at 2. cbn [a_members a_stats a_index a_quads a_in].
      destruct (a_members a + 1 =? 0) eqn:E0; [lia|].
      rewrite a_run_stmts_open by reflexivity.
      rewrite IH by (cbn; lia). cbn.
      rewrite <- app_assoc. reflexivity.
    + rewrite a_run_stmts_open by reflexivity.
      rewrite IH by (cbn; lia). cbn. reflexivity.
Qed.

Lemma group_batches_members (counts : list Z) :
  forall idx cm cq,
    zsum (map counts_members (group_batches batch_size counts idx cm cq))
    = cm + Z.of_nat (List.length counts).
Proof.
  induction counts as [|n rest IH]; intros idx cm cq.
  - cbn. destruct (cm =? 0) eqn:E; cbn; lia.
  - cbn [group_batches List.length].
    destruct (cm + 1 =? batch_size).
    + cbn [map zsum fold_right]. fold (zsum (map counts_members
        (group_batches batch_size rest (idx + 1) 0 n))).
      rewrite IH. cbn. lia.
    + rewrite IH. lia.
Qed.

(** Full batches first, then at most one partial batch. *)
Lemma group_batches_members_list (counts : list Z) :
  forall idx cm cq,
    0 <= cm < batch_size ->
    let total := cm + Z.of_nat (List.length counts) in
    map counts_members (group_batches batch_size counts idx cm cq)
    = (repeat batch_size (Z.to_nat (total / batch_size))
       ++ (if total mod batch_size =? 0 then []
           else [total mod batch_size]))%list.
Proof.
  induction counts as [|n rest IH]; intros idx cm cq Hcm total.
  - subst total. cbn [List.length group_batches].
    replace (cm + Z.of_nat 0) with cm by lia.
    rewrite Z.div_small, Z.mod_small by lia.
    destruct (cm =? 0); reflexivity.
  - cbn [group_batches].
    destruct (cm + 1 =? batch_size) eqn:E.
    + apply Z.eqb_eq in E.
      assert (Ht : total
                   = 0 + Z.of_nat (List.length rest) + 1 * batch_size)
        by (subst total; cbn [List.length]; lia).
      rewrite Ht, Z.div_add, Z.mod_add by lia.
      cbn [map]. rewrite (IH (idx + 1) 0 n) by lia.
      pose proof (Z.div_pos (0 + Z.of_nat (List.length rest)) batch_size
                    ltac:(lia) ltac:(lia)) as Hq.
      replace (Z.to_nat ((0 + Z.of_nat (List.length rest)) / batch_size + 1))
        with (S (Z.to_nat ((0 + Z.of_nat (List.length rest)) / batch_size)))
        by lia.
      cbn [repeat app counts_members fst snd]. now rewrite E.
    + apply Z.eqb_neq in E.
      rewrite (IH idx (cm + 1) (cq + n)) by lia.
      assert (Ht : total = cm + 1 + Z.of_nat (List.length rest))
        by (subst total; cbn [List.length]; lia).
      now rewrite Ht.
Qed.

Lemma count_full_batches (total : Z) :
  0 <= total ->
  count_occ Z.eq_dec
    (repeat batch_size (Z.to_nat (total / batch_size))
     ++ (if total mod batch_size =? 0 then [] else [total mod batch_size]))
    batch_size
  = Z.to_nat (total / batch_size).
Proof.
  intros Ht. rewrite count_occ_app, count_occ_repeat_eq by reflexivity.
  pose proof (Z.mod_pos_bound total batch_size ltac:(lia)) as Hm.
  destruct (total mod batch_size =? 0); cbn [count_occ]; [lia|].
  destruct (Z.eq_dec (total mod batch_size) batch_size); lia.
Qed.

(** With batches of one member, the quads of every batch are those of
    the group before. *)
Lemma group_batches_one (counts : list Z) :
  batch_size = 1 ->
  forall idx cq,
    map counts_quads (group_batches batch_size counts idx 0 cq)
    = removelast (cq :: counts).
Proof.
  intros HB. induction counts as [|n rest IH]; intros idx cq.
  - reflexivity.
  - cbn [group_batches]. rewrite HB. cbn [Z.add Z.eqb Pos.eqb map].
    rewrite <- HB, IH. reflexivity.
Qed.

Lemma last_cons_default (n : Z) (rest : list Z) (d : Z) :
  last (n :: rest) d = last rest n.
Proof.
  revert n d. induction rest as [|m rest IH]; intros n d; [reflexivity|].
  change (last (n :: m :: rest) d) with (last (m :: rest) d).
  now rewrite (IH m d), (IH m n).
Qed.

(** The quads of the returned batches: all counted lines, except those
    still in the open batch when the stream ends right after a flush. *)
Lemma group_batches_quads (counts : list Z) :
  forall idx cm cq,
    0 <= cm < batch_size ->
    zsum (map counts_quads (group_batches batch_size counts idx cm cq))
    = if (cm + Z.of_nat (List.length counts)) mod batch_size =? 0
      then cq + zsum counts - last counts cq
      else cq + zsum counts.
Proof.
  induction counts as [|n rest IH]; intros idx cm cq Hcm.
  - cbn [List.length group_batches last zsum fold_right].
    replace (cm + Z.of_nat 0) with cm by lia.
    rewrite Z.mod_small by lia.
    destruct (cm =? 0); cbn; lia.
  - cbn [group_batches]. rewrite last_cons_default.
    change (zsum (n :: rest)) with (n + zsum rest).
    destruct (cm + 1 =? batch_size) eqn:E.
    + apply Z.eqb_eq in E.
      cbn [map zsum fold_right].
      fold (zsum (map counts_quads
                   (group_batches batch_size rest (idx + 1) 0 n))).
      rewrite IH by lia.
      replace (cm + Z.of_nat (List.length (n :: rest)))
        with (0 + Z.of_nat (List.length rest) + 1 * batch_size)
        by (cbn [List.length]; lia).
      rewrite Z.mod_add by lia.
      destruct ((0 + Z.of_nat (List.length rest)) mod batch_size =? 0);
        cbn; lia.
    + apply Z.eqb_neq in E.
      rewrite IH by lia.
      replace (cm + Z.of_nat (List.length (n :: rest)))
        with (cm + 1 + Z.of_nat (List.length rest))
        by (cbn [List.length]; lia).
      destruct ((cm + 1 + Z.of_nat (List.length rest)) mod batch_size =? 0)
        eqn:Em; [|lia].
      destruct rest as [|m rest'].
      * apply Z.eqb_eq in Em. cbn [List.length] in Em.
        replace (cm + 1 + Z.of_nat 0) with (cm + 1) in Em by lia.
        rewrite Z.mod_small in Em by lia. lia.
      * rewrite !last_cons_default. lia.
Qed.

End Groups.

(** ** What the writer produces for clean data *)

Module WriterFacts.

Lemma is_lineb_sound (s : string) : is_lineb s = true -> is_line s.
Proof.
  induction s as [|c s IH]; [discriminate|].
  destruct s as [|d s].
  - cbn. intros Hc. apply Ascii.eqb_eq in Hc as ->.
    exists EmptyString. now split.
  - cbn [is_lineb]. intros Hs. apply andb_prop in Hs as [Hc Hs].
    destruct (IH Hs) as [body [Hb Hn]].
    exists (String c body). split.
    + cbn. now rewrite <- Hb.
    + unfold no_newline in *. cbn. now rewrite Hc, Hn.
Qed.

Lemma concat_cons (l : string) (ls : list string) :
  String.concat EmptyString (l :: ls) = l ++ String.concat EmptyString ls.
Proof. destruct ls; simpl; [now rewrite append_nil_r | reflexivity]. Qed.

Lemma concat_app (l1 l2 : list string) :
  String.concat EmptyString (l1 ++ l2)
  = String.concat EmptyString l1 ++ String.concat EmptyString l2.
Proof.
  induction l1 as [|l l1 IH]; [reflexivity|].
  rewrite <- app_comm_cons, !concat_cons, IH. now rewrite append_assoc.
Qed.

Lemma strip_body (c : ascii) (x y : string) :
  isspace c = false -> rstrip y <> EmptyString ->
  strip (String c x ++ y) = String c x ++ rstrip y.
Proof.
  intros Hc Hy. unfold strip.
  change (String c x ++ y) with (String c (x ++ y)).
  rewrite (lstrip_nonspace _ _ Hc).
  change (String c (x ++ y)) with (String c x ++ y).
  now apply rstrip_app.
Qed.

Lemma term_to_nq_head (t : Term) (r : string) :
  term_to_nq t = Ok r ->
  exists c x, r = String c x /\ isspace c = false /\ c <> "#"%char.
Proof.
  destruct t as [iri|l|b|o]; cbn; try discriminate.
  - intros [= <-]. exists "<"%char. eexists. now repeat split.
  - destruct (match datatype l with
              | Some dt => (dt =? XSD_integer)%string
              | None => false
              end).
    + destruct (py_int (lexical l)); [|discriminate].
      intros [= <-]. exists (ascii_of_nat 34). eexists. now repeat split.
    + destruct (language l) as [[|c' r']|]; intros [= <-];
        exists (ascii_of_nat 34); eexists; now repeat split.
Qed.

Lemma classify_stmt (c : ascii) (x : string) :
  isspace c = false -> c <> "#"%char ->
  startswith (String c x ++ " ." ++ NL) MARKER_PREFIX = false ->
  classify (String c x ++ " ." ++ NL) = StmtLine.
Proof.
  intros Hc Hh Hm. unfold classify.
  rewrite strip_body by (assumption || (cbn; discriminate)).
  change (rstrip (" ." ++ NL)) with " .".
  cbn [append String.eqb orb].
  replace (startswith (String c (x ++ " .")) "#") with false.
  2:{ cbn. destruct (Ascii.eqb c "#") eqn:E; [|reflexivity].
      apply Ascii.eqb_eq in E. contradiction. }
  replace (startswith (String c (x ++ " .")) MARKER_PREFIX) with false.
  2:{ destruct (startswith (String c (x ++ " .")) MARKER_PREFIX) eqn:E;
        [|reflexivity].
      apply (startswith_weaken _ NL) in E.
      change (String c (x ++ " .")) with (String c x ++ " .") in E.
      rewrite append_assoc in E. cbn [append] in E, Hm. congruence. }
  change (String c (x ++ " .")) with (String c x ++ " .").
  now rewrite endswith_app.
Qed.

Lemma clean_term_ok (t : Term) :
  clean_term t = true ->
  exists r, term_to_nq t = Ok r /\ no_newline r = true.
Proof.
  unfold clean_term. destruct (term_to_nq t) as [r|]; [|discriminate].
  intros Hn. now exists r.
Qed.

(** A clean quad is written as one line, which the parser takes for a
    statement. *)
Lemma quad_line_clean (q : Quad) :
  clean_quad q = true ->
  exists l, quad_line q = Ok l /\ is_line l /\ classify l = StmtLine
            /\ startswith l MARKER_PREFIX = false.
Proof.
  destruct q as [[[s p] o] g]. unfold clean_quad.
  intros Hq. repeat (apply andb_prop in Hq as [Hq ?]).
  destruct (clean_term_ok s) as [rs [Es Hs]]; [assumption|].
  destruct (clean_term_ok p) as [rp [Ep Hp]]; [assumption|].
  destruct (clean_term_ok o) as [ro [Eo Ho]]; [assumption|].
  destruct (clean_term_ok g) as [rg [Eg Hg]]; [assumption|].
  destruct (term_to_nq_head _ _ Es) as [c [x [-> [Hc Hh]]]].
  unfold quad_line in *. rewrite Es, Ep, Eo, Eg in *. cbn [bind] in *.
  match goal with
  | H : negb (startswith ?l _) = true |- _ =>
      apply negb_true_iff in H; rename H into Hm
  end.
  set (body := x ++ " " ++ rp ++ " " ++ ro ++ " " ++ rg).
  assert (El : String c x ++ " " ++ rp ++ " " ++ ro ++ " " ++ rg ++ " ." ++ NL
               = String c body ++ " ." ++ NL).
  { subst body.
    change (String c (x ++ " " ++ rp ++ " " ++ ro ++ " " ++ rg))
      with (String c x ++ " " ++ rp ++ " " ++ ro ++ " " ++ rg).
    now rewrite !append_assoc. }
  rewrite El in *. eexists. split; [reflexivity|]. split; [|split].
  - exists (String c body ++ " ."). split.
    + now rewrite !append_assoc.
    + unfold no_newline in *. subst body. cbn [all_chars] in Hs.
      apply andb_prop in Hs as [Hc' Hx].
      repeat (rewrite all_chars_app || cbn [all_chars append]).
      rewrite Hc', Hx, Hp, Ho, Hg. reflexivity.
  - now apply classify_stmt.
  - exact Hm.
Qed.

Lemma marker_line_is_line (m : string) :
  no_newline m = true -> is_line (marker_line m).
Proof.
  intros Hm. exists (MARKER_PREFIX ++ m ++ "> ."). split.
  - unfold marker_line, MARKER_PREFIX. now rewrite !append_assoc.
  - unfold no_newline in *. rewrite !all_chars_app, Hm. reflexivity.
Qed.

Lemma marker_line_prefix (m : string) :
  marker_line m = MARKER_PREFIX ++ m ++ "> ." ++ NL.
Proof. unfold marker_line, MARKER_PREFIX. now rewrite !append_assoc. Qed.

Lemma classify_marker (m : string) : classify (marker_line m) = MarkerLine.
Proof.
  unfold classify. rewrite marker_line_prefix.
  assert (Es : strip (MARKER_PREFIX ++ m ++ "> ." ++ NL)
               = MARKER_PREFIX ++ m ++ "> .").
  { set (tl := substring 1 (String.length MARKER_PREFIX) MARKER_PREFIX).
    change MARKER_PREFIX with (String "<" tl).
    replace (String "<" tl ++ m ++ "> ." ++ NL)
      with (String "<" (tl ++ m) ++ "> ." ++ NL)
      by (cbn [append]; now rewrite append_assoc).
    rewrite strip_body by (reflexivity || (cbn; discriminate)).
    cbn [append]. now rewrite append_assoc. }
  rewrite Es, startswith_app. reflexivity.
Qed.

End WriterFacts.

Import WriterFacts.

Module PageFacts.

Lemma dict_get_clean (d : Dict) (m : string) :
  clean_dict d = true -> In m (dict_keys d) ->
  exists qs, dict_get m d = Some qs
             /\ no_newline m = true /\ forallb clean_quad qs = true.
Proof.
  induction d as [|[k v] d IH]; intros Hd Hin; [contradiction|].
  cbn in Hd. apply andb_prop in Hd as [Hkv Hd].
  apply andb_prop in Hkv as [Hk Hv]. cbn [dict_get].
  destruct (k =? m)%string eqn:E.
  - apply String.eqb_eq in E as <-. now exists v.
  - destruct Hin as [Hin|Hin].
    + cbn in Hin. subst m. now rewrite String.eqb_refl in E.
    + now apply IH.
Qed.

Lemma written_groups_clean (d : Dict) :
  clean_dict d = true -> Forall clean_group (written_groups d).
Proof.
  intros Hd. unfold written_groups. apply Forall_forall.
  intros g Hg. apply in_map_iff in Hg as [m [<- Hm]].
  destruct (dict_get_clean d m Hd Hm) as [qs [-> [Hn Hq]]].
  now split.
Qed.

Lemma write_quads_clean (qs : list Quad) :
  forallb clean_quad qs = true ->
  forall f,
    write_quads qs f
    = Ok (f ++ String.concat EmptyString (map quad_line_text qs)).
Proof.
  induction qs as [|q qs IH]; intros Hq f.
  - cbn. now rewrite append_nil_r.
  - cbn [forallb] in Hq. apply andb_prop in Hq as [Hq Hqs].
    destruct (quad_line_clean q Hq) as [l [El _]].
    cbn [write_quads map]. unfold quad_line_text at 1.
    rewrite El. cbn [bind]. rewrite (IH Hqs), concat_cons.
    now rewrite append_assoc.
Qed.

Lemma write_members_clean (d : Dict) (keys : list string) :
  (forall m, In m keys ->
             exists qs, dict_get m d = Some qs
                        /\ forallb clean_quad qs = true) ->
  forall f,
    write_members keys d f
    = Ok (f ++ String.concat EmptyString
                 (flat_map group_lines
                    (map (fun m => (m, match dict_get m d with
                                       | Some qs => qs
                                       | None => []
                                       end)) keys))).
Proof.
  induction keys as [|m keys IH]; intros Hk f.
  - cbn. now rewrite append_nil_r.
  - destruct (Hk m (or_introl eq_refl)) as [qs [Eq Hq]].
    cbn [write_members map flat_map]. rewrite Eq.
    rewrite (write_quads_clean qs Hq). cbn [bind].
    rewrite IH by (intros m' Hm'; apply Hk; now right).
    change (group_lines (m, qs))
      with (marker_line m :: map quad_line_text qs).
    rewrite concat_app, concat_cons. now rewrite !append_assoc.
Qed.

Lemma write_clean (d : Dict) :
  clean_dict d = true ->
  write_tree_profile_page_gz d
  = Ok (String.concat EmptyString (page_lines d)).
Proof.
  intros Hd. unfold write_tree_profile_page_gz, page_lines.
  rewrite write_members_clean.
  - now rewrite concat_app.
  - intros m Hm. destruct (dict_get_clean d m Hd Hm) as [qs [E [_ Hq]]].
    now exists qs.
Qed.

Lemma hypermedia_block_lines : Forall is_line hypermedia_block.
Proof.
  unfold hypermedia_block.
  repeat (constructor; [apply is_lineb_sound; vm_compute; reflexivity|]).
  constructor.
Qed.

Lemma hypermedia_block_kinds :
  map classify hypermedia_block = repeat StmtLine 8.
Proof. vm_compute. reflexivity. Qed.

Lemma group_lines_are_lines (g : string * list Quad) :
  clean_group g -> Forall is_line (group_lines g).
Proof.
  intros [Hm Hq]. constructor; [now apply marker_line_is_line|].
  apply Forall_forall. intros l Hl.
  apply in_map_iff in Hl as [q [<- Hin]].
  assert (Hc : clean_quad q = true).
  { apply (proj1 (forallb_forall _ _) Hq _ Hin). }
  destruct (quad_line_clean q Hc) as [l [El [Hl _]]].
  unfold quad_line_text. now rewrite El.
Qed.

Lemma group_lines_kinds (g : string * list Quad) :
  clean_group g ->
  map classify (group_lines g) = group_kinds (List.length (snd g)).
Proof.
  intros [_ Hq]. unfold group_lines, group_kinds. cbn [map].
  rewrite classify_marker. f_equal.
  induction (snd g) as [|q qs IH]; [reflexivity|].
  cbn [forallb] in Hq. apply andb_prop in Hq as [Hc Hqs].
  destruct (quad_line_clean q Hc) as [l [El [_ [Hk _]]]].
  cbn [map List.length repeat]. unfold quad_line_text at 1.
  rewrite El, Hk. f_equal. now apply IH.
Qed.

Lemma page_lines_are_lines (d : Dict) :
  clean_dict d = true -> Forall is_line (page_lines d).
Proof.
  intros Hd. unfold page_lines. apply Forall_app. split.
  - apply hypermedia_block_lines.
  - pose proof (written_groups_clean d Hd) as Hg.
    induction Hg as [|g gs Hc _ IH]; [constructor|].
    cbn [flat_map]. apply Forall_app. split; [|exact IH].
    now apply group_lines_are_lines.
Qed.

Lemma page_lines_kinds (d : Dict) :
  clean_dict d = true ->
  map classify (page_lines d)
  = (repeat StmtLine 8
     ++ flat_map group_kinds
          (map (fun g => List.length (snd g)) (written_groups d)))%list.
Proof.
  intros Hd. unfold page_lines.
  rewrite map_app, hypermedia_block_kinds. f_equal.
  pose proof (written_groups_clean d Hd) as Hg.
  induction Hg as [|g gs Hc _ IH]; [reflexivity|].
  cbn [flat_map map]. rewrite map_app, IH.
  now rewrite (group_lines_kinds g Hc).
Qed.

Lemma read_page (d : Dict) :
  clean_dict d = true ->
  read_lines (String.concat EmptyString (page_lines d)) = page_lines d.
Proof.
  intros Hd. unfold read_lines.
  rewrite <- (append_nil_r (String.concat EmptyString (page_lines d))).
  rewrite read_from_lines by now apply page_lines_are_lines.
  cbn. now rewrite app_nil_r.
Qed.

(** Writing clean data and parsing the page: the parser returns, with
    the counts of [group_batches]. *)
Lemma page_counts (perf_counter : Clock) (d : Dict) (batch_size : Z) :
  clean_dict d = true ->
  exists content stats,
    write_tree_profile_page_gz d = Ok content
    /\ parse_tree_profile_batches perf_counter content batch_size = Ok stats
    /\ map stat_counts stats
       = group_batches batch_size (statement_counts d) 0 0 0.
Proof.
  intros Hd.
  destruct (parse_counts perf_counter batch_size
              (String.concat EmptyString (page_lines d)))
    as [stats [Hp Hc]].
  exists (String.concat EmptyString (page_lines d)), stats.
  split; [now apply write_clean|]. split; [exact Hp|].
  rewrite Hc, (read_page d Hd), (page_lines_kinds d Hd).
  unfold abs_parse. rewrite a_run_app.
  rewrite a_run_stmts_closed by reflexivity.
  rewrite a_run_groups by (cbn; lia).
  unfold statement_counts. now rewrite map_map.
Qed.

End PageFacts.

Import PageFacts.

(** ** Decimal numerals *)

Module DecimalFacts.

Lemma isdigit_not_int_space (c : ascii) :
  isdigit c = true -> int_isspace c = false.
Proof.
  destruct c as [b0 b1 b2 b3 b4 b5 b6 b7].
  destruct b0, b1, b2, b3, b4, b5, b6, b7; vm_compute; congruence.
Qed.

Lemma strip_by_nonspace (p : ascii -> bool) (s : string) :
  all_chars (fun c => negb (p c)) s = true -> strip_by p s = s.
Proof.
  intros Hs. unfold strip_by.
  assert (Hl : lstrip_by p s = s).
  { destruct s as [|c s]; [reflexivity|].
    cbn in Hs. apply andb_prop in Hs as [Hc _].
    apply negb_true_iff in Hc. cbn. now rewrite Hc. }
  rewrite Hl. clear Hl.
  induction s as [|c s IH]; [reflexivity|].
  cbn in Hs. apply andb_prop in Hs as [Hc Hs]. cbn [rstrip_by].
  rewrite (IH Hs). destruct s; [|reflexivity].
  apply negb_true_iff in Hc. now rewrite Hc.
Qed.

Lemma isdigit_not_space (c : ascii) : isdigit c = true -> isspace c = false.
Proof.
  destruct c as [b0 b1 b2 b3 b4 b5 b6 b7].
  destruct b0, b1, b2, b3, b4, b5, b6, b7; vm_compute; congruence.
Qed.

Lemma isdigit_not_eol (c : ascii) : isdigit c = true -> not_eol c = true.
Proof.
  destruct c as [b0 b1 b2 b3 b4 b5 b6 b7].
  destruct b0, b1, b2, b3, b4, b5, b6, b7; vm_compute; congruence.
Qed.

Lemma all_chars_impl (p q : ascii -> bool) (s : string) :
  (forall c, p c = true -> q c = true) ->
  all_chars p s = true -> all_chars q s = true.
Proof.
  intros Hpq. induction s as [|c s IH]; [reflexivity|].
  cbn. intros Hs. apply andb_prop in Hs as [Hc Hs].
  now rewrite (Hpq _ Hc), (IH Hs).
Qed.

Lemma string_of_uint_digits (d : Decimal.uint) :
  all_chars isdigit (NilEmpty.string_of_uint d) = true.
Proof. induction d; cbn; auto. Qed.

Lemma string_of_uint_nonempty (d : Decimal.uint) :
  d <> Decimal.Nil -> NilEmpty.string_of_uint d <> EmptyString.
Proof. destruct d; cbn; congruence. Qed.

Lemma group_digits_all (s : string) :
  all_chars isdigit s = true ->
  forall b, (s = EmptyString -> b = true) -> group_digits b s = Some s.
Proof.
  induction s as [|c s IH]; intros Hs b Hb.
  - cbn. now rewrite (Hb eq_refl).
  - cbn in Hs. apply andb_prop in Hs as [Hc Hs].
    cbn. rewrite Hc, (IH Hs true); [reflexivity | reflexivity].
Qed.

Lemma strip_sign_digit (c : ascii) (s : string) :
  isdigit c = true -> strip_sign (String c s) = (false, String c s).
Proof.
  destruct c as [b0 b1 b2 b3 b4 b5 b6 b7].
  destruct b0, b1, b2, b3, b4, b5, b6, b7; vm_compute; congruence.
Qed.

(** [int(str(v)) == v] on numerals of positive numbers. *)
Lemma py_int_digits (neg : bool) (p : positive) :
  py_int ((if neg then "-" else EmptyString)
          ++ NilEmpty.string_of_uint (Pos.to_uint p))
  = Some (if neg then Z.neg p else Z.pos p).
Proof.
  pose proof (string_of_uint_digits (Pos.to_uint p)) as Hd.
  pose proof (string_of_uint_nonempty _ (DecimalPos.Unsigned.to_uint_nonnil p)) as Hne.
  pose proof (NilEmpty.usu (Pos.to_uint p)) as Hu.
  assert (Hz : Z.of_uint (Pos.to_uint p) = Z.pos p).
  { unfold Z.of_uint. now rewrite DecimalPos.Unsigned.of_to. }
  destruct (NilEmpty.string_of_uint (Pos.to_uint p)) as [|c s] eqn:Es;
    [congruence|].
  assert (Hsp : all_chars (fun c => negb (int_isspace c)) (String c s) = true).
  { revert Hd. apply all_chars_impl. intros a Ha.
    now rewrite (isdigit_not_int_space _ Ha). }
  pose proof Hd as Hd'. cbn in Hd'. apply andb_prop in Hd' as [Hc _].
  unfold py_int. destruct neg.
  - rewrite strip_by_nonspace
      by (cbn [append all_chars] in *; now rewrite Hsp).
    cbn [append strip_sign].
    rewrite (group_digits_all _ Hd) by discriminate.
    now rewrite Hu, Hz.
  - cbn [append]. rewrite (strip_by_nonspace _ _ Hsp), (strip_sign_digit _ _ Hc).
    rewrite (group_digits_all _ Hd) by discriminate.
    now rewrite Hu, Hz.
Qed.

Lemma py_int_str_int (z : Z) : py_int (str_int z) = Some z.
Proof.
  destruct z as [|p|p].
  - reflexivity.
  - unfold str_int. cbn [Z.to_int NilZero.string_of_int].
    unfold NilZero.string_of_uint.
    pose proof (DecimalPos.Unsigned.to_uint_nonnil p) as Hn.
    pose proof (py_int_digits false p) as Hp. cbn [append] in Hp.
    destruct (Pos.to_uint p); [congruence | exact Hp ..].
  - unfold str_int. cbn [Z.to_int NilZero.string_of_int].
    unfold NilZero.string_of_uint.
    pose proof (DecimalPos.Unsigned.to_uint_nonnil p) as Hn.
    pose proof (py_int_digits true p) as Hp. cbn [append] in Hp.
    destruct (Pos.to_uint p); [congruence | exact Hp ..].
Qed.

Lemma str_int_no_newline (z : Z) : no_newline (str_int z) = true.
Proof.
  assert (Hu : forall d, no_newline (NilZero.string_of_uint d) = true).
  { intros d. unfold NilZero.string_of_uint.
    assert (Hd : no_newline (NilEmpty.string_of_uint d) = true).
    { apply (all_chars_impl isdigit); [apply isdigit_not_eol|].
      apply string_of_uint_digits. }
    destruct d; [reflexivity | exact Hd ..]. }
  unfold str_int. destruct (Z.to_int z) as [d|d];
    cbn [NilZero.string_of_int].
  - apply Hu.
  - unfold no_newline. cbn [all_chars]. apply (Hu d).
Qed.

Lemma zeros_no_newline (n : nat) : no_newline (zeros n) = true.
Proof. induction n as [|n IH]; [reflexivity | exact IH]. Qed.

Lemma format_05d_no_newline (i : Z) : no_newline (format_05d i) = true.
Proof.
  unfold format_05d, zero_pad, no_newline.
  destruct (i <? 0); cbn [all_chars]; rewrite all_chars_app;
    [change (not_eol "-") with true; cbn [andb] |];
    apply andb_true_intro; split;
    (apply zeros_no_newline || apply str_int_no_newline).
Qed.

End DecimalFacts.

Import DecimalFacts.

(** ** The generated data is clean *)

Section GeneratorFacts.

Context {G : Type} `{Random G}.

Lemma last_field_from_chars (p : ascii -> bool) (sep : ascii) (s : string) :
  forall acc,
    all_chars p acc = true -> all_chars p s = true ->
    all_chars p (last_field_from acc sep s) = true.
Proof.
  induction s as [|c s IH]; intros acc Ha Hs; [exact Ha|].
  cbn in Hs. apply andb_prop in Hs as [Hc Hs]. cbn [last_field_from].
  destruct (Ascii.eqb c sep).
  - now apply IH.
  - apply IH; [|exact Hs]. rewrite all_chars_app, Ha. cbn. now rewrite Hc.
Qed.

Lemma choices_chars (p : ascii -> bool) (population : list ascii) :
  p zero = true -> Forall (fun c => p c = true) population ->
  forall k g,
    all_chars p (string_of_list_ascii (fst (choices population k g))) = true.
Proof.
  intros Hz Hp. induction k as [|k IH]; intros g; [reflexivity|].
  cbn [choices]. unfold choice.
  destruct (randbelow (N.of_nat (List.length population)) g) as [i g1].
  specialize (IH g1). destruct (choices population k g1) as [cs g2].
  cbn [fst string_of_list_ascii all_chars] in *. rewrite IH, andb_true_r.
  destruct (nth_in_or_default (N.to_nat i) population zero) as [Hin| ->].
  - exact (proj1 (Forall_forall _ _) Hp _ Hin).
  - exact Hz.
Qed.

Lemma rand_label_no_newline (n : nat) (g : G) :
  no_newline (fst (rand_label n g)) = true.
Proof.
  unfold rand_label.
  pose proof (choices_chars not_eol ascii_letters eq_refl) as Hc.
  specialize (Hc ltac:(unfold ascii_letters; cbn;
                       repeat constructor) n g).
  now destruct (choices ascii_letters n g).
Qed.

Lemma no_newline_app (a b : string) :
  no_newline a = true -> no_newline b = true -> no_newline (a ++ b) = true.
Proof. unfold no_newline. intros Ha Hb. now rewrite all_chars_app, Ha, Hb. Qed.

Lemma clean_term_uriref (iri : string) :
  no_newline iri = true -> clean_term (URIRef iri) = true.
Proof.
  intros Hi. unfold clean_term. cbn [term_to_nq].
  now repeat apply no_newline_app.
Qed.

Lemma clean_term_plain (s : string) :
  no_newline s = true -> clean_term (Literal (mkLit s None None)) = true.
Proof.
  intros Hs. unfold clean_term. cbn.
  now repeat apply no_newline_app.
Qed.

Lemma clean_term_integer (v : Z) :
  clean_term (Literal (mkLit (str_int v) (Some XSD_integer) None)) = true.
Proof.
  unfold clean_term, term_to_nq. cbn [datatype lexical].
  rewrite String.eqb_refl, py_int_str_int.
  repeat apply no_newline_app; try reflexivity.
  apply str_int_no_newline.
Qed.

(** A statement about a member of the collection is clean: its line
    starts with the member IRI, which differs from the collection IRI
    inside [MEM_BASE] already. *)
Lemma clean_quad_member (x p : string) (o : Term) :
  no_newline x = true -> no_newline p = true -> clean_term o = true ->
  clean_quad (URIRef (MEM_BASE ++ x), URIRef p, o, URIRef (MEM_BASE ++ x))
  = true.
Proof.
  intros Hx Hp Ho.
  assert (Hm : clean_term (URIRef (MEM_BASE ++ x)) = true).
  { apply clean_term_uriref. now apply no_newline_app. }
  unfold clean_quad. rewrite Hm, (clean_term_uriref p Hp), Ho.
  cbn [andb]. unfold quad_line. cbn [term_to_nq bind].
  destruct (clean_term_ok o Ho) as [ro [-> _]]. cbn [bind].
  reflexivity.
Qed.

Lemma extra_quads_clean (x : string) :
  no_newline x = true ->
  forall k g,
    forallb clean_quad (fst (extra_quads (MEM_BASE ++ x) k g)) = true.
Proof.
  intros Hx. induction k as [|k IH]; intros g; [reflexivity|].
  cbn [extra_quads]. unfold choice at 1.
  destruct (randbelow _ g) as [i g1].
  destruct (random_lt_half g1) as [coin g2].
  assert (Hname : no_newline
                    (EX EmptyString
                     ++ nth (N.to_nat i) ["tag"; "attr"; "prop"; "rel"]
                            EmptyString) = true).
  { apply no_newline_app; [reflexivity|].
    destruct (N.to_nat i) as [|[|[|[|[|n]]]]]; reflexivity. }
  destruct coin.
  - pose proof (rand_label_no_newline 10 g2) as Hl.
    destruct (rand_label 10 g2) as [lbl g3]. cbn [fst] in Hl.
    specialize (IH g3).
    destruct (extra_quads (MEM_BASE ++ x) k g3) as [qs g4].
    cbn [fst forallb] in *. rewrite IH, andb_true_r.
    apply clean_quad_member; auto using clean_term_plain.
  - pose proof (rand_label_no_newline 6 g2) as Hl.
    destruct (rand_label 6 g2) as [lbl g3]. cbn [fst] in Hl.
    specialize (IH g3).
    destruct (extra_quads (MEM_BASE ++ x) k g3) as [qs g4].
    cbn [fst forallb] in *. rewrite IH, andb_true_r.
    apply clean_quad_member; auto.
    apply clean_term_uriref. now repeat apply no_newline_app.
Qed.

Lemma member_quads_clean (x : string) (n : Z) (g : G) :
  no_newline x = true ->
  forallb clean_quad (fst (member_quads (MEM_BASE ++ x) n g)) = true.
Proof.
  intros Hx. unfold member_quads.
  destruct (randint_draw 0 1000000 g) as [v g1].
  pose proof (extra_quads_clean x Hx
                (Z.to_nat (Z.max 0 (n - 3))) g1) as He.
  destruct (extra_quads (MEM_BASE ++ x) _ g1) as [extra g2].
  cbn [fst forallb] in *. rewrite He, andb_true_r.
  rewrite !clean_quad_member; auto using clean_term_integer.
  apply clean_term_plain. apply no_newline_app; [reflexivity|].
  apply last_field_from_chars; [reflexivity|].
  now apply no_newline_app.
Qed.

Lemma dict_set_clean (m : string) (v : list Quad) (d : Dict) :
  no_newline m = true -> forallb clean_quad v = true ->
  clean_dict d = true -> clean_dict (dict_set m v d) = true.
Proof.
  intros Hm Hv. induction d as [|[k w] d IH]; intros Hd.
  - cbn [dict_set clean_dict forallb fst snd]. now rewrite Hm, Hv.
  - cbn [clean_dict forallb fst snd] in Hd.
    apply andb_prop in Hd as [Hkw Hd].
    apply andb_prop in Hkw as [Hk Hw]. cbn [dict_set].
    destruct (k =? m)%string; cbn [clean_dict forallb fst snd].
    + rewrite Hk, Hv. exact Hd.
    + rewrite Hk, Hw. now apply IH.
Qed.

Lemma generate_from_clean (tmin tmax : Z) (count : nat) :
  forall first d g,
    clean_dict d = true ->
    clean_dict (fst (generate_from count first tmin tmax d g)) = true.
Proof.
  induction count as [|count IH]; intros first d g Hd; [exact Hd|].
  cbn [generate_from].
  destruct (randint_draw tmin tmax g) as [n g1].
  unfold make_member_iri.
  pose proof (member_quads_clean (format_05d first) n g1
                (format_05d_no_newline first)) as Hq.
  destruct (member_quads (MEM_BASE ++ format_05d first) n g1) as [qs g2].
  apply IH. apply dict_set_clean; [|exact Hq|exact Hd].
  apply no_newline_app; [reflexivity | apply format_05d_no_newline].
Qed.

Lemma generate_clean (num_members : nat) (tmin tmax : Z) (g : G) :
  clean_dict (fst (generate num_members tmin tmax g)) = true.
Proof. now apply generate_from_clean. Qed.

End GeneratorFacts.

(** ** Streams and lines for the parser *)

Module ParserFacts.

Lemma is_marker_classify (raw : string) :
  is_marker raw = true <-> classify raw = MarkerLine.
Proof.
  unfold is_marker, classify. split.
  - intros Hm. rewrite Hm.
    destruct (startswith_inv _ _ Hm) as [r ->]. reflexivity.
  - destruct ((strip raw =? EmptyString)%string || startswith (strip raw) "#");
      [discriminate|].
    destruct (startswith (strip raw) MARKER_PREFIX); [reflexivity|].
    destruct (endswith (strip raw) " ."); discriminate.
Qed.

Lemma parse_lines_app clk B (l1 l2 : list string) (st : PState) :
  parse_lines clk B (l1 ++ l2) st
  = (st' <- parse_lines clk B l1 st ;; parse_lines clk B l2 st').
Proof.
  revert st. induction l1 as [|l l1 IH]; intros st; [reflexivity|].
  cbn [app parse_lines].
  destruct (parse_line clk B l st) as [st1|e]; cbn [bind]; [apply IH|].
  reflexivity.
Qed.

(** Before the first marker: a line that is no marker leaves the whole
    state as it is. *)
Lemma parse_line_closed clk B (raw : string) (st : PState) :
  st_in_members st = false -> is_marker raw = false ->
  parse_line clk B raw st = Ok st.
Proof.
  unfold is_marker, parse_line. intros Hin ->. rewrite Hin.
  now destruct ((strip raw =? EmptyString)%string
                || startswith (strip raw) "#").
Qed.

Lemma parse_lines_closed clk B (ls : list string) (st : PState) :
  st_in_members st = false ->
  Forall (fun l => is_marker l = false) ls ->
  parse_lines clk B ls st = Ok st.
Proof.
  intros Hin Hls. induction Hls as [|l ls Hl _ IH]; [reflexivity|].
  cbn [parse_lines]. now rewrite (parse_line_closed clk B l st Hin Hl).
Qed.

Lemma rstrip_newline (y : string) : rstrip (y ++ NL) = rstrip y.
Proof.
  induction y as [|c y IH]; [reflexivity|].
  cbn [append rstrip]. now rewrite IH.
Qed.

Lemma strip_newline (x : string) : strip (x ++ NL) = strip x.
Proof.
  unfold strip. induction x as [|c x IH]; [reflexivity|].
  cbn [append lstrip]. destruct (isspace c); [exact IH|].
  apply (rstrip_newline (String c x)).
Qed.

Lemma startswith_hash_strip (raw : string) :
  startswith raw "#" = true -> startswith (strip raw) "#" = true.
Proof.
  intros Hr. destruct (startswith_inv _ _ Hr) as [r ->].
  unfold strip. cbn [append lstrip].
  change (isspace "#") with false. cbn [rstrip].
  now destruct (rstrip r).
Qed.

Lemma parse_line_skippable clk B (raw : string) (st : PState) :
  skippable raw = true -> parse_line clk B raw st = Ok st.
Proof.
  unfold skippable, parse_line. intros Hs.
  destruct (strip raw =? EmptyString)%string; [reflexivity|].
  cbn [orb] in *.
  destruct (startswith (strip raw) "#") eqn:Eh; [reflexivity|].
  destruct (startswith raw "#") eqn:Er.
  - apply startswith_hash_strip in Er. congruence.
  - cbn [orb] in Hs. apply andb_prop in Hs as [Hm He].
    apply negb_true_iff in Hm, He. rewrite Hm, He.
    now rewrite andb_false_r.
Qed.

Lemma skippable_newline (x : string) :
  no_newline x = true -> skippable x = true -> skippable (x ++ NL) = true.
Proof.
  unfold skippable. rewrite strip_newline. intros Hn Hs.
  destruct (strip x =? EmptyString)%string; [reflexivity|].
  cbn [orb] in *.
  destruct (startswith x "#") eqn:Er.
  - now rewrite (startswith_weaken _ NL _ Er).
  - cbn [orb] in Hs.
    destruct (startswith (x ++ NL) "#"); cbn [orb]; [reflexivity | exact Hs].
Qed.

Lemma read_lines_terminated (c1 rest : string) :
  line_terminated c1 ->
  read_lines (c1 ++ rest) = (read_lines c1 ++ read_lines rest)%list.
Proof.
  intros [-> | [p ->]]; [reflexivity | apply read_lines_app].
Qed.

Lemma read_lines_line (x rest : string) :
  no_newline x = true ->
  read_lines (x ++ NL ++ rest) = (x ++ NL) :: read_lines rest.
Proof. intros Hx. unfold read_lines. now rewrite read_from_line. Qed.

End ParserFacts.

Import ParserFacts.

(** * The claims *)

(** ** Round trip of writer and parser (C1, C2, C3, C10) *)

Lemma map_members_counts (stats : list BatchStat) :
  map members_in_batch stats = map counts_members (map stat_counts stats).
Proof. rewrite map_map. reflexivity. Qed.

Lemma map_quads_counts (stats : list BatchStat) :
  map quads_in_batch stats = map counts_quads (map stat_counts stats).
Proof. rewrite map_map. reflexivity. Qed.

Lemma statement_counts_length (d : Dict) :
  List.length (statement_counts d) = List.length (dict_keys d).
Proof. unfold statement_counts, written_groups. now rewrite !length_map. Qed.

Lemma scenario_dict_clean : clean_dict scenario_dict = true.
Proof. vm_compute. reflexivity. Qed.

Lemma scenario_dict_counts : statement_counts scenario_dict = [3; 5; 2].
Proof. vm_compute. reflexivity. Qed.

(** C1, at the failing input: for the page of three groups with 3, 5 and
    2 statements, read with batch size 1, the parser returns three
    batches whose quad counts are 0, 3 and 5: each batch carries the
    count of the group before its own, and the 2 statements of the last
    group are in no batch. *)
Theorem C1_batch_size_one_counts_shifted :
  forall perf_counter : Clock,
  exists content stats,
    write_tree_profile_page_gz scenario_dict = Ok content
    /\ parse_tree_profile_batches perf_counter content 1 = Ok stats
    /\ statement_counts scenario_dict = [3; 5; 2]
    /\ map quads_in_batch stats = [0; 3; 5].
Proof.
  intros clk.
  destruct (page_counts clk scenario_dict 1 scenario_dict_clean)
    as [content [stats [Hw [Hp Hc]]]].
  exists content, stats.
  split; [exact Hw|]. split; [exact Hp|].
  split; [exact scenario_dict_counts|].
  rewrite map_quads_counts, Hc, group_batches_one by reflexivity.
  now rewrite scenario_dict_counts.
Qed.

(** C2, at the failing input: for the page of three groups with 3, 5 and
    2 statements, read with batch size 2, the parser returns two batches,
    of 2 members with 3 quads and of 1 member with 7 quads. *)
Theorem C2_scenario_batches :
  forall perf_counter : Clock,
  exists content stats,
    write_tree_profile_page_gz scenario_dict = Ok content
    /\ parse_tree_profile_batches perf_counter content 2 = Ok stats
    /\ map (fun b => (members_in_batch b, quads_in_batch b)) stats
       = [(2, 3); (1, 7)].
Proof.
  intros clk.
  destruct (page_counts clk scenario_dict 2 scenario_dict_clean)
    as [content [stats [Hw [Hp Hc]]]].
  exists content, stats.
  split; [exact Hw|]. split; [exact Hp|].
  transitivity (map (fun c => (counts_members c, counts_quads c))
                    (map stat_counts stats)).
  - rewrite map_map. reflexivity.
  - rewrite Hc, scenario_dict_counts. reflexivity.
Qed.

(** C3, the claim as stated fails on a stream the writer produces from
    data that are not clean: for one group whose statement has the
    collection as subject and [tree:member] as predicate, the writer
    succeeds, and with batch size 1 the parser returns two batches of one
    member each, two members for one group. *)
Lemma C3_statement_taken_for_marker :
  clean_dict injected_dict = false
  /\ Z.of_nat (List.length (dict_keys injected_dict)) = 1
  /\ exists content stats,
      write_tree_profile_page_gz injected_dict = Ok content
      /\ parse_tree_profile_batches sample_clock content 1 = Ok stats
      /\ map members_in_batch stats = [1; 1]
      /\ zsum (map members_in_batch stats) = 2.
Proof.
  split; [vm_compute; reflexivity|]. split; [reflexivity|].
  destruct (write_tree_profile_page_gz injected_dict) as [content|e] eqn:Ew;
    [|vm_compute in Ew; discriminate Ew].
  exists content.
  assert (Hp : (c <- write_tree_profile_page_gz injected_dict ;;
                parse_tree_profile_batches sample_clock c 1)
               = Ok [mkBatchStat 0 1 0 10; mkBatchStat 1 1 0 10])
    by (vm_compute; reflexivity).
  rewrite Ew in Hp. cbn [bind] in Hp.
  eexists. split; [reflexivity|]. split; [exact Hp|].
  split; reflexivity.
Qed.

(** C3, as amended: for a batch size B >= 1 and the page written for clean
    data (every term renders on one line and no statement line starts
    with the marker prefix, as for generated data) of G groups, the
    parser returns batches whose member counts are
    floor(G/B) times B, then G mod B if that is not zero.  So the member
    counts add up to G, floor(G/B) batches have B members; no group gives
    no batch, G = B gives one batch of B members, and 1 <= G < B gives one
    batch of G members. *)
Theorem C3_member_conservation :
  forall (perf_counter : Clock) (d : Dict) (batch_size : Z),
    clean_dict d = true -> 1 <= batch_size ->
    let G := Z.of_nat (List.length (dict_keys d)) in
    exists content stats,
      write_tree_profile_page_gz d = Ok content
      /\ parse_tree_profile_batches perf_counter content batch_size = Ok stats
      /\ map members_in_batch stats
         = (repeat batch_size (Z.to_nat (G / batch_size))
            ++ (if G mod batch_size =? 0 then [] else [G mod batch_size]))%list
      /\ zsum (map members_in_batch stats) = G
      /\ count_occ Z.eq_dec (map members_in_batch stats) batch_size
         = Z.to_nat (G / batch_size)
      /\ (G = 0 -> stats = [])
      /\ (G = batch_size -> map members_in_batch stats = [batch_size])
      /\ (0 < G < batch_size -> map members_in_batch stats = [G]).
Proof.
  intros clk d B Hd HB G.
  destruct (page_counts clk d B Hd) as [content [stats [Hw [Hp Hc]]]].
  exists content, stats.
  assert (HG : G = 0 + Z.of_nat (List.length (statement_counts d))).
  { subst G. rewrite statement_counts_length. lia. }
  assert (Hm : map members_in_batch stats
               = (repeat B (Z.to_nat (G / B))
                  ++ (if G mod B =? 0 then [] else [G mod B]))%list).
  { rewrite map_members_counts, Hc, HG.
    apply (group_batches_members_list B HB); lia. }
  split; [exact Hw|]. split; [exact Hp|]. split; [exact Hm|].
  split; [|split; [|split; [|split]]].
  - rewrite map_members_counts, Hc, group_batches_members. lia.
  - rewrite Hm. apply count_full_batches; lia.
  - intros H0. rewrite H0 in Hm. rewrite Z.div_0_l, Z.mod_0_l in Hm by lia.
    cbn in Hm. now apply map_eq_nil in Hm.
  - intros HGB. rewrite Hm, HGB, Z.div_same, Z.mod_same by lia. reflexivity.
  - intros HGB. rewrite Hm, Z.div_small, Z.mod_small by lia.
    destruct (G =? 0) eqn:E; [lia | reflexivity].
Qed.

Lemma C3_member_conservation_witness :
  exists content stats,
    write_tree_profile_page_gz scenario_dict = Ok content
    /\ parse_tree_profile_batches sample_clock content 2 = Ok stats
    /\ map members_in_batch stats = [2; 1].
Proof.
  destruct (C3_member_conservation sample_clock scenario_dict 2
              ltac:(vm_compute; reflexivity) ltac:(lia))
    as [content [stats [Hw [Hp [Hm _]]]]].
  exists content, stats.
  split; [exact Hw|]. split; [exact Hp|]. exact Hm.
Defined.

(** C10, the claim as stated fails on a stream the writer produces from
    data that are not clean: for one group whose statement has the
    collection as subject and [tree:member] as predicate, with batch size
    2, the number of groups is no multiple of the batch size and the one
    statement line is counted in no batch, being taken for a marker. *)
Lemma C10_statement_line_not_counted :
  clean_dict injected_dict = false
  /\ statement_counts injected_dict = [1]
  /\ Z.of_nat (List.length (statement_counts injected_dict)) mod 2 <> 0
  /\ exists content stats,
      write_tree_profile_page_gz injected_dict = Ok content
      /\ parse_tree_profile_batches sample_clock content 2 = Ok stats
      /\ zsum (map quads_in_batch stats) = 0.
Proof.
  split; [vm_compute; reflexivity|]. split; [vm_compute; reflexivity|].
  split; [vm_compute; discriminate|].
  destruct (write_tree_profile_page_gz injected_dict) as [content|e] eqn:Ew;
    [|vm_compute in Ew; discriminate Ew].
  exists content.
  assert (Hp : (c <- write_tree_profile_page_gz injected_dict ;;
                parse_tree_profile_batches sample_clock c 2)
               = Ok [mkBatchStat 0 2 0 10])
    by (vm_compute; reflexivity).
  rewrite Ew in Hp. cbn [bind] in Hp.
  eexists. split; [reflexivity|]. split; [exact Hp | reflexivity].
Qed.

(** C10, as amended: the parser closes a batch at its B-th marker, before
    it reads the lines of that group, so these lines are counted in the
    batch after.  For the page written for clean data (every term renders
    on one line and no statement line starts with the marker prefix, as
    for generated data) with G groups and B >= 1, the
    returned counts are those of [group_batches]; the quads of all
    returned batches add up to the number of statement lines when B does
    not divide G, and to that number less the lines of the last group
    when G > 0 and B divides G. *)
Theorem C10_quads_of_open_batch :
  forall (perf_counter : Clock) (d : Dict) (batch_size : Z),
    clean_dict d = true -> 1 <= batch_size ->
    let counts := statement_counts d in
    let G := Z.of_nat (List.length counts) in
    (forall n rest idx cq,
        group_batches batch_size (n :: rest) idx (batch_size - 1) cq
        = (idx, batch_size, cq)
            :: group_batches batch_size rest (idx + 1) 0 n)
    /\ exists content stats,
      write_tree_profile_page_gz d = Ok content
      /\ parse_tree_profile_batches perf_counter content batch_size = Ok stats
      /\ map stat_counts stats = group_batches batch_size counts 0 0 0
      /\ (G mod batch_size <> 0 ->
          zsum (map quads_in_batch stats) = zsum counts)
      /\ (0 < G -> G mod batch_size = 0 ->
          zsum (map quads_in_batch stats) = zsum counts - last counts 0).
Proof.
  intros clk d B Hd HB counts G. split.
  { intros n rest idx cq. cbn [group_batches].
    replace (B - 1 + 1) with B by lia. now rewrite Z.eqb_refl. }
  destruct (page_counts clk d B Hd) as [content [stats [Hw [Hp Hc]]]].
  exists content, stats.
  assert (Hq : zsum (map quads_in_batch stats)
               = if G mod B =? 0
                 then zsum counts - last counts 0 else zsum counts).
  { rewrite map_quads_counts, Hc.
    rewrite (group_batches_quads B HB) by lia.
    subst G counts. cbn [Z.add].
    destruct (_ mod B =? 0); lia. }
  split; [exact Hw|]. split; [exact Hp|]. split; [exact Hc|]. split.
  - intros Hne. rewrite Hq. apply Z.eqb_neq in Hne. now rewrite Hne.
  - intros _ He. rewrite Hq, He. reflexivity.
Qed.

Lemma C10_quads_of_open_batch_witness :
  exists content stats,
    write_tree_profile_page_gz scenario_dict = Ok content
    /\ parse_tree_profile_batches sample_clock content 3 = Ok stats
    /\ zsum (map quads_in_batch stats) = 3 + 5 + 2 - 2.
Proof.
  destruct (C10_quads_of_open_batch sample_clock scenario_dict 3
              ltac:(vm_compute; reflexivity) ltac:(lia))
    as [_ [content [stats [Hw [Hp [_ [_ Hq]]]]]]].
  exists content, stats.
  split; [exact Hw|]. split; [exact Hp|].
  apply Hq; vm_compute; reflexivity.
Defined.

(** ** Lines before the first marker (C4) *)

Lemma endswith_newline (s : string) :
  endswith s NL = true -> exists p, s = p ++ NL.
Proof.
  induction s as [|c s IH]; cbn [endswith].
  - discriminate.
  - intros Hs. apply orb_prop in Hs as [Hs|Hs].
    + apply String.eqb_eq in Hs. exists EmptyString. exact Hs.
    + destruct (IH Hs) as [p ->]. now exists (String c p).
Qed.

Lemma hypermedia_block_read :
  read_lines (String.concat EmptyString hypermedia_block) = hypermedia_block.
Proof.
  unfold read_lines.
  rewrite <- (append_nil_r (String.concat EmptyString hypermedia_block)).
  rewrite (read_from_lines _ _ hypermedia_block_lines).
  cbn [read_from]. apply app_nil_r.
Qed.

(** C4: while no group has been opened, a line that is no marker leaves
    the whole parser state, quad counter included, as it is; so for every
    stream and every batch size the lines before the first marker can be
    removed without changing any returned batch, and the hypermedia block
    of the writer is such a run of lines. *)
Theorem C4_pre_marker_lines_not_counted :
  forall (perf_counter : Clock) (batch_size : Z),
    (forall raw st,
        st_in_members st = false -> is_marker raw = false ->
        parse_line perf_counter batch_size raw st = Ok st)
    /\ (forall pre rest,
           line_terminated pre ->
           Forall (fun l => is_marker l = false) (read_lines pre) ->
           parse_tree_profile_batches perf_counter (pre ++ rest) batch_size
           = parse_tree_profile_batches perf_counter rest batch_size)
    /\ (forall rest,
           parse_tree_profile_batches perf_counter
             (String.concat EmptyString hypermedia_block ++ rest) batch_size
           = parse_tree_profile_batches perf_counter rest batch_size).
Proof.
  intros clk B.
  assert (Hpre : forall pre rest,
             line_terminated pre ->
             Forall (fun l => is_marker l = false) (read_lines pre) ->
             parse_tree_profile_batches clk (pre ++ rest) B
             = parse_tree_profile_batches clk rest B).
  { intros pre rest Ht Hm. unfold parse_tree_profile_batches.
    rewrite (read_lines_terminated pre rest Ht), parse_lines_app.
    now rewrite (parse_lines_closed clk B _ init_state eq_refl Hm). }
  split; [|split].
  - intros raw st. apply parse_line_closed.
  - exact Hpre.
  - intros rest. apply Hpre.
    + right. apply endswith_newline. vm_compute. reflexivity.
    + rewrite hypermedia_block_read. unfold hypermedia_block.
      repeat (constructor; [vm_compute; reflexivity|]). constructor.
Qed.

Lemma C4_pre_marker_lines_not_counted_witness :
  parse_line sample_clock 1 ("<a> <b> <c> ." ++ NL) init_state = Ok init_state
  /\ parse_tree_profile_batches sample_clock
       (("# page" ++ NL ++ "<a> <b> <c> ." ++ NL)
        ++ marker_line "m" ++ "<m> <b> <c> <m> ." ++ NL) 1
     = parse_tree_profile_batches sample_clock
         (marker_line "m" ++ "<m> <b> <c> <m> ." ++ NL) 1.
Proof.
  destruct (C4_pre_marker_lines_not_counted sample_clock 1) as [Hl [Hp _]].
  split.
  - apply Hl; vm_compute; reflexivity.
  - apply Hp.
    + right. exists ("# page" ++ NL ++ "<a> <b> <c> ."). reflexivity.
    + vm_compute. repeat constructor.
Defined.

(** ** Marker lines of a generated page (C5) *)

Section GeneratedKeys.

Context {G : Type} `{Random G}.

Lemma dict_set_member_keys (x : string) (v : list Quad) (d : Dict) :
  Forall member_key d -> Forall member_key (dict_set (MEM_BASE ++ x) v d).
Proof.
  induction 1 as [|[k w] d Hk Hd IH]; cbn [dict_set].
  - constructor; [now exists x | constructor].
  - destruct (k =? MEM_BASE ++ x)%string;
      (constructor; [exact Hk | assumption]).
Qed.

Lemma generate_from_member_keys (tmin tmax : Z) (count : nat) :
  forall first d g,
    Forall member_key d ->
    Forall member_key (fst (generate_from count first tmin tmax d g)).
Proof.
  induction count as [|count IH]; intros first d g Hd; [exact Hd|].
  cbn [generate_from].
  destruct (randint_draw tmin tmax g) as [n g1].
  destruct (member_quads (make_member_iri first) n g1) as [qs g2].
  apply IH. now apply dict_set_member_keys.
Qed.

Lemma member_iri_not_collection (x : string) : MEM_BASE ++ x <> COLL.
Proof. intros Heq. vm_compute in Heq. discriminate Heq. Qed.

End GeneratedKeys.

(** C5: in the page written for generated data, whatever the random
    draws, the member IRIs differ from the collection IRI, the text read
    back is the lines written, and a line starts with the marker prefix
    (as written, and as the parser tests it on the stripped line) exactly
    when it is one of the marker lines: no line of the hypermedia block
    and no statement line does. *)
Theorem C5_marker_prefix_unambiguous :
  forall (G : Type) (R : Random G) (num_members : nat) (tmin tmax : Z) (g : G),
    let d := fst (generate num_members tmin tmax g) in
    exists content,
      write_tree_profile_page_gz d = Ok content
      /\ read_lines content
         = (hypermedia_block ++ flat_map group_lines (written_groups d))%list
      /\ Forall (fun l => startswith l MARKER_PREFIX = false
                          /\ is_marker l = false) hypermedia_block
      /\ Forall (fun grp =>
                   fst grp <> COLL
                   /\ startswith (marker_line (fst grp)) MARKER_PREFIX = true
                   /\ is_marker (marker_line (fst grp)) = true
                   /\ Forall (fun q =>
                                startswith (quad_line_text q) MARKER_PREFIX
                                = false
                                /\ is_marker (quad_line_text q) = false)
                             (snd grp))
                (written_groups d).
Proof.
  intros G R num_members tmin tmax g d.
  assert (Hd : clean_dict d = true) by apply generate_clean.
  exists (String.concat EmptyString (page_lines d)).
  split; [now apply write_clean|]. split; [now apply read_page|]. split.
  - unfold hypermedia_block.
    repeat (constructor; [split; vm_compute; reflexivity|]). constructor.
  - assert (Hk : Forall member_key d)
      by (apply generate_from_member_keys; constructor).
    pose proof (written_groups_clean d Hd) as Hc.
    apply Forall_forall. intros grp Hin.
    pose proof (proj1 (Forall_forall _ _) Hc grp Hin) as [_ Hq].
    split; [|split; [|split]].
    + unfold written_groups in Hin.
      apply in_map_iff in Hin as [m [<- Hm]]. cbn [fst].
      unfold dict_keys in Hm. apply in_map_iff in Hm as [kv [<- Hkv]].
      destruct (proj1 (Forall_forall _ _) Hk kv Hkv) as [x ->].
      apply member_iri_not_collection.
    + rewrite marker_line_prefix. apply startswith_app.
    + apply is_marker_classify, classify_marker.
    + apply Forall_forall. intros q Hq'.
      pose proof (proj1 (forallb_forall _ _) Hq q Hq') as Hcq.
      destruct (quad_line_clean q Hcq) as [l [El [_ [Hs Hm]]]].
      unfold quad_line_text. rewrite El. split; [exact Hm|].
      destruct (is_marker l) eqn:E; [|reflexivity].
      apply is_marker_classify in E. congruence.
Qed.

(** ** Term rendering (C6) *)

(** C6, the claim as stated fails on an integer-typed literal whose text
    is no integer numeral: the conversion [int(t)] raises ValueError, with
    the interpreter's message for that text, and nothing is rendered. *)
Lemma C6_ill_typed_integer_raises :
  term_to_nq (Literal (mkLit "abc" (Some XSD_integer) None))
  = Raise (ValueError (InvalidIntLiteral "abc")).
Proof. reflexivity. Qed.

(** C6, as amended: a URIRef renders in angle brackets; a literal of
    datatype xsd:integer whose text is an integer numeral renders as the
    quoted decimal of its value with the typed suffix, and one whose text
    is no numeral raises ValueError; a literal of another or no datatype
    renders as its quoted text, followed by [@] and the language tag when
    it has a non-empty one; every term that is neither a URIRef nor a
    Literal raises ValueError. *)
Theorem C6_term_rendering :
  (forall iri, term_to_nq (URIRef iri) = Ok ("<" ++ iri ++ ">"))
  /\ (forall l z,
         datatype l = Some XSD_integer -> py_int (lexical l) = Some z ->
         term_to_nq (Literal l)
         = Ok (DQ ++ str_int z ++ DQ ++ "^^<" ++ XSD_integer ++ ">"))
  /\ (forall l,
         datatype l = Some XSD_integer -> py_int (lexical l) = None ->
         exists msg, term_to_nq (Literal l) = Raise (ValueError msg))
  /\ (forall l tag,
         datatype l <> Some XSD_integer ->
         language l = Some tag -> tag <> EmptyString ->
         term_to_nq (Literal l) = Ok (DQ ++ lexical l ++ DQ ++ "@" ++ tag))
  /\ (forall l,
         datatype l <> Some XSD_integer ->
         language l = None \/ language l = Some EmptyString ->
         term_to_nq (Literal l) = Ok (DQ ++ lexical l ++ DQ))
  /\ (forall t,
         (forall iri, t <> URIRef iri) -> (forall l, t <> Literal l) ->
         exists msg, term_to_nq t = Raise (ValueError msg)).
Proof.
  assert (Hdt : forall l, datatype l <> Some XSD_integer ->
                          match datatype l with
                          | Some dt => (dt =? XSD_integer)%string
                          | None => false
                          end = false).
  { intros l Hl. destruct (datatype l) as [dt|]; [|reflexivity].
    destruct (dt =? XSD_integer)%string eqn:E; [|reflexivity].
    apply String.eqb_eq in E. congruence. }
  split; [reflexivity|]. split; [|split; [|split; [|split]]].
  - intros l z Hd Hz. cbn [term_to_nq]. rewrite Hd, String.eqb_refl, Hz.
    reflexivity.
  - intros l Hd Hz. cbn [term_to_nq]. rewrite Hd, String.eqb_refl, Hz.
    eexists. reflexivity.
  - intros l tag Hd Hl Ht. cbn [term_to_nq]. rewrite (Hdt l Hd), Hl.
    destruct tag; [congruence | reflexivity].
  - intros l Hd Hl. cbn [term_to_nq]. rewrite (Hdt l Hd).
    destruct Hl as [-> | ->]; reflexivity.
  - intros t Hu Hl. destruct t as [iri|l|id|repr].
    + now destruct (Hu iri).
    + now destruct (Hl l).
    + eexists. reflexivity.
    + eexists. reflexivity.
Qed.

Lemma C6_term_rendering_witness :
  term_to_nq (Literal (mkLit " +4_2 " (Some XSD_integer) None))
  = Ok (DQ ++ "42" ++ DQ ++ "^^<" ++ XSD_integer ++ ">")
  /\ (exists msg, term_to_nq (Literal (mkLit "4 2" (Some XSD_integer) None))
                  = Raise (ValueError msg))
  /\ (exists msg,
         term_to_nq (Literal (mkLit (String (ascii_of_nat 28) "42")
                                    (Some XSD_integer) None))
         = Raise (ValueError msg))
  /\ term_to_nq (Literal (mkLit "chat" None (Some "fr")))
     = Ok (DQ ++ "chat" ++ DQ ++ "@fr")
  /\ term_to_nq (Literal (mkLit "cat" (Some RDFS_label) None))
     = Ok (DQ ++ "cat" ++ DQ)
  /\ (exists msg, term_to_nq (BNode "r1") = Raise (ValueError msg)).
Proof.
  destruct C6_term_rendering as [_ [Hint [Hbad [Hlang [Hplain Hother]]]]].
  split; [|split; [|split; [|split; [|split]]]].
  - apply (Hint (mkLit " +4_2 " (Some XSD_integer) None) 42); reflexivity.
  - apply Hbad; reflexivity.
  - apply Hbad; reflexivity.
  - apply (Hlang (mkLit "chat" None (Some "fr")) "fr");
      [discriminate | reflexivity | discriminate].
  - apply Hplain; [discriminate | left; reflexivity].
  - apply Hother; discriminate.
Defined.

(** ** Lines the parser passes over (C7) *)

(** C7: the parser returns a result for every text, clock and batch
    size; a line that is blank, starts with [#], or neither starts with
    the marker prefix nor ends in [ .] leaves the parser state as it is;
    and a text with such a line put between two of its lines gives the
    same batches. *)
Theorem C7_skipped_lines_change_nothing :
  forall (perf_counter : Clock) (batch_size : Z),
    (forall content,
        exists stats,
          parse_tree_profile_batches perf_counter content batch_size
          = Ok stats)
    /\ (forall raw st,
           skippable raw = true ->
           parse_line perf_counter batch_size raw st = Ok st)
    /\ (forall before x after,
           line_terminated before -> no_newline x = true ->
           skippable x = true ->
           parse_tree_profile_batches perf_counter
             (before ++ x ++ NL ++ after) batch_size
           = parse_tree_profile_batches perf_counter
               (before ++ after) batch_size).
Proof.
  intros clk B. split; [|split].
  - intros content.
    destruct (parse_counts clk B content) as [stats [Hp _]]. now exists stats.
  - intros raw st. apply parse_line_skippable.
  - intros before x after Hb Hx Hs. unfold parse_tree_profile_batches.
    rewrite !(read_lines_terminated before _ Hb), (read_lines_line _ _ Hx).
    rewrite !parse_lines_app.
    destruct (parse_lines clk B (read_lines before) init_state) as [st|e];
      [|reflexivity].
    cbn [bind parse_lines].
    now rewrite (parse_line_skippable clk B _ st (skippable_newline x Hx Hs)).
Qed.

Lemma C7_skipped_lines_change_nothing_witness :
  parse_line sample_clock 2 "   # a comment" init_state = Ok init_state
  /\ parse_tree_profile_batches sample_clock
       ((marker_line "m" ++ "<m> <b> <c> <m> ." ++ NL)
        ++ "stray text" ++ NL ++ "<m> <b> <d> <m> ." ++ NL) 2
     = parse_tree_profile_batches sample_clock
         ((marker_line "m" ++ "<m> <b> <c> <m> ." ++ NL)
          ++ "<m> <b> <d> <m> ." ++ NL) 2.
Proof.
  destruct (C7_skipped_lines_change_nothing sample_clock 2) as [_ [Hl Hi]].
  split.
  - apply Hl. vm_compute. reflexivity.
  - apply Hi.
    + right. exists (marker_line "m" ++ "<m> <b> <c> <m> ."). vm_compute.
      reflexivity.
    + vm_compute. reflexivity.
    + vm_compute. reflexivity.
Defined.

(** ** Two runs on the same stream (C8) *)

(** C8, the claim as stated fails on the seconds: two runs on the same
    one-group stream with the same batch size, whose clocks tick
    differently, return batches that differ in [seconds]. *)
Lemma C8_seconds_differ_between_runs :
  parse_tree_profile_batches sample_clock (marker_line "m") 1
  = Ok [mkBatchStat 0 1 0 10]
  /\ parse_tree_profile_batches (fun k => Z.of_nat k * 25) (marker_line "m") 1
     = Ok [mkBatchStat 0 1 0 25]
  /\ parse_tree_profile_batches sample_clock (marker_line "m") 1
     <> parse_tree_profile_batches (fun k => Z.of_nat k * 25)
          (marker_line "m") 1.
Proof.
  split; [vm_compute; reflexivity|]. split; [vm_compute; reflexivity|].
  vm_compute. discriminate.
Qed.

(** C8, as amended: two runs on the same stream with the same batch size
    both return, and their batch sequences agree element for element in
    batch_index, members_in_batch and quads_in_batch, whatever the two
    clocks read. *)
Theorem C8_counts_deterministic :
  forall (clock1 clock2 : Clock) (content : string) (batch_size : Z),
  exists stats1 stats2,
    parse_tree_profile_batches clock1 content batch_size = Ok stats1
    /\ parse_tree_profile_batches clock2 content batch_size = Ok stats2
    /\ map stat_counts stats1 = map stat_counts stats2
    /\ List.length stats1 = List.length stats2.
Proof.
  intros c1 c2 content B.
  destruct (parse_counts c1 B content) as [s1 [H1 E1]].
  destruct (parse_counts c2 B content) as [s2 [H2 E2]].
  exists s1, s2. split; [exact H1|]. split; [exact H2|].
  assert (E : map stat_counts s1 = map stat_counts s2) by congruence.
  split; [exact E|].
  now rewrite <- (length_map stat_counts s1), E, length_map.
Qed.

(** ** Generated quads (C9) *)

Section GeneratedQuads.

Context {G : Type} `{Random G}.

Lemma extra_quads_ok (member : string) (k : nat) :
  forall g, Forall (generated_quad_ok member) (fst (extra_quads member k g)).
Proof.
  induction k as [|k IH]; intros g; [constructor|].
  cbn [extra_quads].
  destruct (choice _ _ g) as [name g1].
  destruct (random_lt_half g1) as [coin g2].
  destruct coin.
  - destruct (rand_label 10 g2) as [lbl g3]. specialize (IH g3).
    destruct (extra_quads member k g3) as [qs g4]. cbn [fst] in *.
    constructor; [|exact IH].
    unfold generated_quad_ok. cbn.
    split; [reflexivity|]. split; [reflexivity|].
    split; [eexists; reflexivity|]. split; [reflexivity|].
    repeat constructor.
  - destruct (rand_label 6 g2) as [lbl g3]. specialize (IH g3).
    destruct (extra_quads member k g3) as [qs g4]. cbn [fst] in *.
    constructor; [|exact IH].
    unfold generated_quad_ok. cbn.
    split; [reflexivity|]. split; [reflexivity|].
    split; [eexists; reflexivity|]. split; [reflexivity|].
    repeat constructor.
Qed.

End GeneratedQuads.

(** C9: whatever the random draws, every quad of [member_quads member n]
    has [member] as subject and as graph, a URIRef as predicate, a URIRef
    or a Literal as object, and no term of it is a literal with both a
    datatype and a language tag. *)
Theorem C9_member_quads_invariant :
  forall (G : Type) (R : Random G) (member : string) (n_triples : Z) (g : G),
    Forall (generated_quad_ok member) (fst (member_quads member n_triples g)).
Proof.
  intros G R member n g. unfold member_quads.
  destruct (randint_draw 0 1000000 g) as [v g1].
  pose proof (extra_quads_ok member (Z.to_nat (Z.max 0 (n - 3))) g1) as He.
  destruct (extra_quads member _ g1) as [extra g2]. cbn [fst] in *.
  repeat (constructor;
          [unfold generated_quad_ok; cbn;
           split; [reflexivity|]; split; [reflexivity|];
           split; [eexists; reflexivity|]; split; [reflexivity|];
           repeat constructor|]).
  exact He.
Qed.

(** * Further properties of the code *)

(** ** The parser on an arbitrary stream *)

Section AnyStream.

Variable batch_size : Z.

Lemma a_run_sizes_open (ks : list LineKind) :
  forall a,
    a_in a = true -> 0 <= a_members a ->
    a_stats (a_flush (a_run batch_size ks a))
    = (a_stats a ++
       group_batches batch_size (map Z.of_nat (group_sizes ks))
         (a_index a) (a_members a)
         (a_quads a + Z.of_nat (leading_stmts ks)))%list.
Proof.
  induction ks as [|k ks IH]; intros a Hin Hm.
  - cbn. rewrite Z.add_0_r. unfold a_flush.
    destruct (a_members a =? 0); cbn; [now rewrite app_nil_r | reflexivity].
  - rewrite a_run_cons. destruct k; cbn [a_step group_sizes leading_stmts map].
    + now apply IH.
    + cbn [a_members group_batches Z.of_nat]. rewrite Z.add_0_r.
      destruct (a_members a + 1 =? batch_size) eqn:E.
      * unfold a_flush at 2. cbn [a_members a_stats a_index a_quads a_in].
        destruct (a_members a + 1 =? 0) eqn:E0; [lia|].
        rewrite IH by (cbn; (reflexivity || lia)). cbn.
        now rewrite <- app_assoc.
      * rewrite IH by (cbn; (reflexivity || lia)). reflexivity.
    + rewrite Hin. rewrite IH by (cbn; (reflexivity || assumption)).
      cbn [a_stats a_index a_members a_quads]. do 2 f_equal. lia.
    + now apply IH.
Qed.

Lemma a_run_sizes_closed (ks : list LineKind) :
  forall a,
    a_in a = false -> 0 <= a_members a ->
    a_stats (a_flush (a_run batch_size ks a))
    = (a_stats a ++
       group_batches batch_size (map Z.of_nat (group_sizes ks))
         (a_index a) (a_members a) (a_quads a))%list.
Proof.
  induction ks as [|k ks IH]; intros a Hin Hm.
  - cbn. unfold a_flush.
    destruct (a_members a =? 0); cbn; [now rewrite app_nil_r | reflexivity].
  - rewrite a_run_cons. destruct k; cbn [a_step group_sizes map].
    + now apply IH.
    + cbn [a_members group_batches].
      destruct (a_members a + 1 =? batch_size) eqn:E.
      * unfold a_flush at 2. cbn [a_members a_stats a_index a_quads a_in].
        destruct (a_members a + 1 =? 0) eqn:E0; [lia|].
        rewrite a_run_sizes_open by (cbn; (reflexivity || lia)). cbn.
        now rewrite <- app_assoc.
      * rewrite a_run_sizes_open by (cbn; (reflexivity || lia)).
        reflexivity.
    + rewrite Hin. now apply IH.
    + now apply IH.
Qed.

Lemma abs_parse_sizes (ks : list LineKind) :
  abs_parse batch_size ks
  = group_batches batch_size (map Z.of_nat (group_sizes ks)) 0 0 0.
Proof.
  unfold abs_parse. now rewrite a_run_sizes_closed by (cbn; (reflexivity || lia)).
Qed.

End AnyStream.

(** The batch counts of any text are those of [group_batches] on the
    numbers of statement lines that follow each of its markers. *)
Lemma parse_stream_counts (clk : Clock) (content : string) (batch_size : Z) :
  exists stats,
    parse_tree_profile_batches clk content batch_size = Ok stats
    /\ map stat_counts stats
       = group_batches batch_size (stream_counts content) 0 0 0.
Proof.
  destruct (parse_counts clk batch_size content) as [stats [Hp Hc]].
  exists stats. split; [exact Hp|].
  rewrite Hc. apply abs_parse_sizes.
Qed.

Lemma group_batches_indices (batch_size : Z) (counts : list Z) :
  forall idx cm cq,
    map (fun c : Counts => fst (fst c))
        (group_batches batch_size counts idx cm cq)
    = map (fun k => idx + Z.of_nat k)
          (seq 0 (List.length (group_batches batch_size counts idx cm cq))).
Proof.
  induction counts as [|n rest IH]; intros idx cm cq.
  - cbn. destruct (cm =? 0); cbn; [reflexivity|]. now rewrite Z.add_0_r.
  - cbn [group_batches]. destruct (cm + 1 =? batch_size); [|apply IH].
    cbn [map List.length seq fst]. rewrite IH, Z.add_0_r. f_equal.
    rewrite <- seq_shift, map_map. apply map_ext. intros k. lia.
Qed.

Lemma group_batches_nonpositive (batch_size : Z) (counts : list Z) :
  batch_size <= 0 ->
  forall idx cm cq,
    0 <= cm ->
    group_batches batch_size counts idx cm cq
    = if cm + Z.of_nat (List.length counts) =? 0 then []
      else [(idx, cm + Z.of_nat (List.length counts), cq + zsum counts)].
Proof.
  intros HB. induction counts as [|n rest IH]; intros idx cm cq Hcm.
  - cbn. rewrite !Z.add_0_r. reflexivity.
  - cbn [group_batches].
    destruct (cm + 1 =? batch_size) eqn:E; [apply Z.eqb_eq in E; lia|].
    rewrite IH by lia. cbn [List.length].
    replace (cm + 1 + Z.of_nat (List.length rest))
      with (cm + Z.of_nat (S (List.length rest))) by lia.
    destruct (cm + Z.of_nat (S (List.length rest)) =? 0) eqn:E0;
      [apply Z.eqb_eq in E0; lia|].
    change (zsum (n :: rest)) with (n + zsum rest).
    now rewrite Z.add_assoc.
Qed.

Lemma group_sizes_length (ls : list string) :
  List.length (group_sizes (map classify ls))
  = List.length (filter is_marker ls).
Proof.
  induction ls as [|l ls IH]; [reflexivity|].
  cbn [map filter]. destruct (is_marker l) eqn:E.
  - apply is_marker_classify in E. rewrite E. cbn. now rewrite IH.
  - destruct (classify l) eqn:Ec; cbn [group_sizes]; try exact IH.
    apply is_marker_classify in Ec. congruence.
Qed.

Lemma stream_counts_length (content : string) :
  List.length (stream_counts content)
  = List.length (filter is_marker (read_lines content)).
Proof. unfold stream_counts. now rewrite length_map, group_sizes_length. Qed.

Lemma stream_counts_nonneg (content : string) :
  Forall (fun c => 0 <= c) (stream_counts content).
Proof.
  unfold stream_counts. apply Forall_forall. intros c Hc.
  apply in_map_iff in Hc as [n [<- _]]. lia.
Qed.

Lemma last_nonneg (l : list Z) (d : Z) :
  0 <= d -> Forall (fun c => 0 <= c) l -> 0 <= last l d.
Proof.
  intros Hd Hl. revert d Hd. induction Hl as [|c l Hc _ IH]; intros d Hd.
  - exact Hd.
  - rewrite last_cons_default. now apply IH.
Qed.

(** X1: on every text and for every batch size, the batches the parser
    returns are numbered 0, 1, 2, ... in the order they were closed. *)
Theorem X1_batch_indices_consecutive :
  forall (perf_counter : Clock) (content : string) (batch_size : Z),
  exists stats,
    parse_tree_profile_batches perf_counter content batch_size = Ok stats
    /\ map batch_index stats = map Z.of_nat (seq 0 (List.length stats)).
Proof.
  intros clk content B.
  destruct (parse_stream_counts clk content B) as [stats [Hp Hc]].
  exists stats. split; [exact Hp|].
  transitivity (map (fun c : Counts => fst (fst c)) (map stat_counts stats)).
  - rewrite map_map. reflexivity.
  - rewrite Hc, group_batches_indices, <- Hc, length_map.
    apply map_ext. intros k. lia.
Qed.

(** X2: on every text, with a batch size B >= 1 and M lines that start
    with the marker prefix, the parser returns floor(M/B) batches of B
    members, then one of M mod B members if that is not zero; every batch
    has between 1 and B members and the members add up to M.  The quads
    add up to the statement lines that follow a marker, less those after
    the last marker when B divides M. *)
Theorem X2_any_stream_batches :
  forall (perf_counter : Clock) (content : string) (batch_size : Z),
    1 <= batch_size ->
    let M := Z.of_nat (List.length (filter is_marker (read_lines content))) in
    let counts := stream_counts content in
    exists stats,
      parse_tree_profile_batches perf_counter content batch_size = Ok stats
      /\ map members_in_batch stats
         = (repeat batch_size (Z.to_nat (M / batch_size))
            ++ (if M mod batch_size =? 0 then [] else [M mod batch_size]))%list
      /\ Forall (fun m => 1 <= m <= batch_size) (map members_in_batch stats)
      /\ zsum (map members_in_batch stats) = M
      /\ zsum (map quads_in_batch stats)
         = (if M mod batch_size =? 0
            then zsum counts - last counts 0 else zsum counts)
      /\ 0 <= zsum (map quads_in_batch stats) <= zsum counts.
Proof.
  intros clk content B HB M counts.
  destruct (parse_stream_counts clk content B) as [stats [Hp Hc]].
  fold counts in Hc. exists stats.
  assert (HM : M = 0 + Z.of_nat (List.length counts)).
  { subst M counts. rewrite stream_counts_length. lia. }
  assert (Hm : map members_in_batch stats
               = (repeat B (Z.to_nat (M / B))
                  ++ (if M mod B =? 0 then [] else [M mod B]))%list).
  { rewrite map_members_counts, Hc, HM.
    apply (group_batches_members_list B HB); lia. }
  assert (Hq : zsum (map quads_in_batch stats)
               = if M mod B =? 0
                 then zsum counts - last counts 0 else zsum counts).
  { rewrite map_quads_counts, Hc, (group_batches_quads B HB) by lia.
    rewrite <- HM. cbn [Z.add]. reflexivity. }
  split; [exact Hp|]. split; [exact Hm|]. split; [|split; [|split]].
  - rewrite Hm. apply Forall_app. split.
    + apply Forall_forall. intros m Hin. apply repeat_spec in Hin. lia.
    + pose proof (Z.mod_pos_bound M B ltac:(lia)) as Hb.
      destruct (M mod B =? 0) eqn:E; constructor; [|constructor].
      apply Z.eqb_neq in E. lia.
  - rewrite map_members_counts, Hc, group_batches_members. lia.
  - exact Hq.
  - rewrite Hq.
    pose proof (stream_counts_nonneg content) as Hn. fold counts in Hn.
    pose proof (last_nonneg counts 0 ltac:(lia) Hn) as Hl.
    assert (Hle : last counts 0 <= zsum counts).
    { clear -Hn. induction Hn as [|c l Hc Hl IH]; [cbn; lia|].
      rewrite last_cons_default. change (zsum (c :: l)) with (c + zsum l).
      destruct l as [|c' l']; [cbn; lia|].
      rewrite last_cons_default in *. lia. }
    destruct (M mod B =? 0); lia.
Qed.

Lemma X2_any_stream_batches_witness :
  exists stats,
    parse_tree_profile_batches sample_clock
      ("junk" ++ NL ++ marker_line "a" ++ "x y ." ++ NL ++ marker_line "b"
       ++ marker_line "c" ++ "x y ." ++ NL ++ "x z ." ++ NL) 2 = Ok stats
    /\ map members_in_batch stats = [2; 1].
Proof.
  destruct (X2_any_stream_batches sample_clock
              ("junk" ++ NL ++ marker_line "a" ++ "x y ." ++ NL
               ++ marker_line "b" ++ marker_line "c" ++ "x y ." ++ NL
               ++ "x z ." ++ NL) 2 ltac:(lia))
    as [stats [Hp [Hm _]]].
  exists stats. split; [exact Hp | exact Hm].
Defined.

(** X3: with a batch size of zero or less no batch is ever closed at a
    marker: on every text the parser returns nothing when no line starts
    with the marker prefix, and otherwise one batch, numbered 0, holding
    all members and all statement lines that follow a marker. *)
Theorem X3_nonpositive_batch_size :
  forall (perf_counter : Clock) (content : string) (batch_size : Z),
    batch_size <= 0 ->
    let counts := stream_counts content in
    let M := Z.of_nat (List.length (filter is_marker (read_lines content))) in
    exists stats,
      parse_tree_profile_batches perf_counter content batch_size = Ok stats
      /\ map stat_counts stats
         = (if M =? 0 then [] else [(0, M, zsum counts)]).
Proof.
  intros clk content B HB counts M.
  destruct (parse_stream_counts clk content B) as [stats [Hp Hc]].
  exists stats. split; [exact Hp|].
  rewrite Hc, (group_batches_nonpositive B _ HB) by lia.
  subst M counts. now rewrite stream_counts_length.
Qed.

Lemma X3_nonpositive_batch_size_witness :
  exists stats,
    parse_tree_profile_batches sample_clock
      (marker_line "a" ++ "x y ." ++ NL ++ marker_line "b" ++ "x z ." ++ NL)
      0 = Ok stats
    /\ map stat_counts stats = [(0, 2, 2)].
Proof.
  destruct (X3_nonpositive_batch_size sample_clock
              (marker_line "a" ++ "x y ." ++ NL ++ marker_line "b"
               ++ "x z ." ++ NL) 0 ltac:(lia))
    as [stats [Hp Hc]].
  exists stats. split; [exact Hp | exact Hc].
Defined.

(** ** Clock readings of a run *)

Lemma flush_batch_clocked (clk : Clock) (st st' : PState) :
  flush_batch clk st = Ok st' -> clocked clk st -> clocked clk st'.
Proof.
  unfold flush_batch, clocked. intros Hf [Hs Ht].
  destruct (st_current_members st =? 0); [now injection Hf as <-|].
  destruct (st_t0_batch st) as [t0|]; [|discriminate].
  destruct Ht as [Hc ->]. injection Hf as <-.
  cbn [st_batch_stats st_t0_batch st_clock_calls].
  rewrite length_app. cbn [List.length]. rewrite Nat.add_1_r. split.
  - rewrite seq_S, !map_app, Hs. cbn [map seconds Nat.add]. rewrite Hc.
    reflexivity.
  - lia.
Qed.

Lemma parse_line_clocked (clk : Clock) (B : Z) (raw : string) (st st' : PState) :
  parse_line clk B raw st = Ok st' -> clocked clk st -> clocked clk st'.
Proof.
  unfold parse_line. intros Hp Hc.
  destruct ((strip raw =? EmptyString)%string || startswith (strip raw) "#");
    [now injection Hp as <-|].
  destruct (startswith (strip raw) MARKER_PREFIX).
  - destruct (nth_error (split (strip raw) " " 2) 2) as [member|];
      [|discriminate].
    assert (Hc' : forall t0 calls,
               match st_t0_batch st with
               | None => (Some (clk (st_clock_calls st)), S (st_clock_calls st))
               | Some t => (Some t, st_clock_calls st)
               end = (t0, calls) ->
               clocked clk
                 (mkPState (st_batch_stats st) (st_batch_index st)
                           (st_current_members st + 1) (st_current_quads st)
                           t0 true (Some member) calls)).
    { intros t0 calls E. destruct Hc as [Hs Ht]. unfold clocked.
      cbn [st_batch_stats st_t0_batch st_clock_calls]. split; [exact Hs|].
      destruct (st_t0_batch st) as [t|]; injection E as <- <-.
      - exact Ht.
      - rewrite Ht. split; [lia | reflexivity]. }
    destruct (match st_t0_batch st with
              | None => _
              | Some t => _
              end) as [t0 calls].
    specialize (Hc' t0 calls eq_refl).
    cbn [st_current_members] in Hp.
    destruct (st_current_members st + 1 =? B).
    + exact (flush_batch_clocked clk _ _ Hp Hc').
    + now injection Hp as <-.
  - destruct (st_in_members st && endswith (strip raw) " .");
      injection Hp as <-; exact Hc.
Qed.

Lemma parse_lines_clocked (clk : Clock) (B : Z) (lines : list string) :
  forall st st',
    parse_lines clk B lines st = Ok st' -> clocked clk st -> clocked clk st'.
Proof.
  induction lines as [|l lines IH]; intros st st' Hp Hc.
  - now injection Hp as <-.
  - cbn [parse_lines] in Hp.
    destruct (parse_line clk B l st) as [st1|e] eqn:E; [|discriminate].
    cbn [bind] in Hp. apply (IH st1 st' Hp).
    exact (parse_line_clocked clk B l st st1 E Hc).
Qed.

Lemma sample_clock_monotone : monotone sample_clock.
Proof. intros i j Hij. unfold sample_clock. lia. Qed.

(** X4: on every text the parser reads the clock twice for each batch it
    returns, when the first member of the batch arrives and when the batch
    is flushed: the seconds of the k-th batch are reading 2k+1 less
    reading 2k of the run.  With a clock that never runs backwards no
    batch has negative seconds. *)
Theorem X4_seconds_of_batches :
  forall (perf_counter : Clock) (content : string) (batch_size : Z),
  exists stats,
    parse_tree_profile_batches perf_counter content batch_size = Ok stats
    /\ map seconds stats
       = map (batch_seconds perf_counter) (seq 0 (List.length stats))
    /\ (monotone perf_counter -> Forall (fun b => 0 <= seconds b) stats).
Proof.
  intros clk content B.
  destruct (parse_counts clk B content) as [stats [Hp _]].
  exists stats. split; [exact Hp|].
  assert (Hs : map seconds stats
               = map (batch_seconds clk) (seq 0 (List.length stats))).
  { unfold parse_tree_profile_batches in Hp.
    destruct (parse_lines clk B (read_lines content) init_state)
      as [st|e] eqn:El; [|discriminate].
    cbn [bind] in Hp.
    destruct (flush_batch clk st) as [st'|e] eqn:Ef; [|discriminate].
    injection Hp as <-.
    assert (Hi : clocked clk init_state) by (split; reflexivity).
    pose proof (parse_lines_clocked clk B _ _ _ El Hi) as Hc.
    exact (proj1 (flush_batch_clocked clk _ _ Ef Hc)). }
  split; [exact Hs|].
  intros Hmono.
  assert (Hall : Forall (fun s => 0 <= s) (map seconds stats)).
  { rewrite Hs. apply Forall_forall. intros s Hin.
    apply in_map_iff in Hin as [k [<- _]]. unfold batch_seconds.
    pose proof (Hmono (2 * k)%nat (2 * k + 1)%nat ltac:(lia)). lia. }
  apply Forall_forall. intros b Hb.
  apply (proj1 (Forall_forall _ _) Hall). now apply in_map.
Qed.

Lemma X4_seconds_of_batches_witness :
  exists stats,
    parse_tree_profile_batches sample_clock
      (marker_line "a" ++ marker_line "b" ++ marker_line "c") 2 = Ok stats
    /\ Forall (fun b => 0 <= seconds b) stats.
Proof.
  destruct (X4_seconds_of_batches sample_clock
              (marker_line "a" ++ marker_line "b" ++ marker_line "c") 2)
    as [stats [Hp [_ Hn]]].
  exists stats. split; [exact Hp | exact (Hn sample_clock_monotone)].
Defined.

(** ** The member name the parser keeps *)

Lemma split_from_rest (acc : string) (sep : ascii) (s : string) :
  split_from acc sep 0 s = [acc ++ s].
Proof.
  revert acc. induction s as [|c s IH]; intros acc.
  - cbn. now rewrite append_nil_r.
  - cbn [split_from]. destruct (Ascii.eqb c sep);
      rewrite IH, append_assoc; reflexivity.
Qed.

Lemma strip_marker_line (m : string) :
  strip (marker_line m) = MARKER_PREFIX ++ m ++ "> .".
Proof.
  rewrite marker_line_prefix.
  set (tl := substring 1 (String.length MARKER_PREFIX) MARKER_PREFIX).
  change MARKER_PREFIX with (String "<" tl).
  replace (String "<" tl ++ m ++ "> ." ++ NL)
    with (String "<" (tl ++ m) ++ "> ." ++ NL)
    by (cbn [append]; now rewrite append_assoc).
  rewrite strip_body by (reflexivity || (cbn; discriminate)).
  cbn [append]. now rewrite append_assoc.
Qed.

(** X5: for the marker line the writer emits for member [m], whatever the
    state, the parser opens a group and keeps as [current_member] the
    third field of [split(" ", 2)]: the IRI still in its angle brackets and
    followed by the closing [ .], not the IRI itself. *)
Theorem X5_current_member_of_marker :
  forall (perf_counter : Clock) (batch_size : Z) (m : string) (st : PState),
  exists st',
    parse_line perf_counter batch_size (marker_line m) st = Ok st'
    /\ st_current_member st' = Some ("<" ++ m ++ "> .")
    /\ st_in_members st' = true.
Proof.
  intros clk B m st. unfold parse_line.
  rewrite strip_marker_line, startswith_app.
  change ((MARKER_PREFIX ++ m ++ "> ." =? EmptyString)%string
          || startswith (MARKER_PREFIX ++ m ++ "> .") "#") with false.
  cbn iota.
  assert (Hs : nth_error (split (MARKER_PREFIX ++ m ++ "> .") " " 2) 2
               = Some ("<" ++ m ++ "> .")).
  { unfold split. cbn. now rewrite split_from_rest. }
  rewrite Hs.
  destruct (match st_t0_batch st with
            | None => _
            | Some t => _
            end) as [t0 calls] eqn:Et.
  assert (Ht0 : t0 <> None).
  { destruct (st_t0_batch st); injection Et as <- _; discriminate. }
  cbn [st_current_members].
  destruct (st_current_members st + 1 =? B).
  - unfold flush_batch. cbn [st_current_members st_t0_batch].
    destruct (st_current_members st + 1 =? 0).
    + eexists. split; [reflexivity|]. now split.
    + destruct t0 as [t|]; [|congruence].
      eexists. split; [reflexivity|]. now split.
  - eexists. split; [reflexivity|]. now split.
Qed.

(** ** The Jelly batches *)

Lemma jelly_loop_counts (clk : Clock) (B : Z) (sizes : list Z) :
  forall st,
    (j_current_members st <> 0 -> j_t0_batch st <> None) ->
    exists st',
      jelly_loop clk B sizes st = Ok st'
      /\ (j_current_members st' <> 0 -> j_t0_batch st' <> None)
      /\ (map stat_counts (j_batch_stats st')
          ++ (if 0 <? j_current_members st'
              then [(j_batch_index st', j_current_members st',
                     j_current_quads st')]
              else []))%list
         = (map stat_counts (j_batch_stats st)
            ++ jelly_counts B sizes (j_batch_index st)
                 (j_current_members st) (j_current_quads st))%list.
Proof.
  induction sizes as [|q sizes IH]; intros st Ht.
  - exists st. split; [reflexivity|]. split; [exact Ht|]. reflexivity.
  - cbn [jelly_loop jelly_counts]. unfold jelly_step.
    destruct (match j_t0_batch st with
              | None => _
              | Some t => _
              end) as [t0 calls].
    destruct (j_current_members st + 1 =? B); cbn [bind].
    + match goal with
      | |- context [jelly_loop clk B sizes ?s] =>
          destruct (IH s) as [st' [Hl [Ht' Hc]]]
      end.
      { cbn. congruence. }
      exists st'. split; [exact Hl|]. split; [exact Ht'|].
      rewrite Hc. cbn. rewrite map_app, <- app_assoc. reflexivity.
    + match goal with
      | |- context [jelly_loop clk B sizes ?s] =>
          destruct (IH s) as [st' [Hl [Ht' Hc]]]
      end.
      { cbn. congruence. }
      exists st'. split; [exact Hl|]. split; [exact Ht'|].
      rewrite Hc. reflexivity.
Qed.

(** The Jelly path returns, with the load record first and then the
    counts of [jelly_counts]. *)
Lemma parse_jelly_counts (clk : Clock) (sizes : list Z) (B : Z) :
  exists stats,
    parse_jelly_batches clk sizes B
    = Ok (mkBatchStat (-1) 0 0 (clk 1%nat - clk 0%nat) :: stats)
    /\ map stat_counts stats = jelly_counts B sizes 0 0 0.
Proof.
  unfold parse_jelly_batches.
  destruct (jelly_loop_counts clk B sizes (mkJState [] 0 0 0 None 2))
    as [st [Hl [Ht Hc]]].
  { cbn. congruence. }
  rewrite Hl. cbn [bind]. cbn in Hc.
  destruct (0 <? j_current_members st) eqn:E.
  - apply Z.ltb_lt in E.
    destruct (j_t0_batch st) as [t0|] eqn:Et.
    + eexists. split; [reflexivity|]. rewrite map_app. exact Hc.
    + destruct (Ht ltac:(lia) eq_refl).
  - eexists. split; [reflexivity|]. now rewrite app_nil_r in Hc.
Qed.

Lemma jelly_counts_members (B : Z) (sizes : list Z) :
  forall idx idx' cm cq cq',
    0 <= cm ->
    map counts_members (jelly_counts B sizes idx cm cq)
    = map counts_members (group_batches B sizes idx' cm cq').
Proof.
  induction sizes as [|n rest IH]; intros idx idx' cm cq cq' Hcm.
  - cbn. destruct (0 <? cm) eqn:E1, (cm =? 0) eqn:E2; try reflexivity.
    + apply Z.ltb_lt in E1. apply Z.eqb_eq in E2. lia.
    + apply Z.ltb_ge in E1. apply Z.eqb_neq in E2. lia.
  - cbn [jelly_counts group_batches].
    destruct (cm + 1 =? B).
    + cbn [map]. f_equal. apply IH. lia.
    + apply IH. lia.
Qed.

Lemma jelly_counts_quads (B : Z) (sizes : list Z) :
  forall idx cm cq,
    0 <= cm -> (cm = 0 -> cq = 0) ->
    zsum (map counts_quads (jelly_counts B sizes idx cm cq))
    = cq + zsum sizes.
Proof.
  induction sizes as [|n rest IH]; intros idx cm cq Hcm Hcq.
  - cbn [jelly_counts]. destruct (0 <? cm) eqn:E; cbn.
    + lia.
    + apply Z.ltb_ge in E. rewrite Hcq by lia. reflexivity.
  - cbn [jelly_counts]. change (zsum (n :: rest)) with (n + zsum rest).
    destruct (cm + 1 =? B).
    + cbn [map]. change (zsum (?x :: ?l)) with (x + zsum l).
      rewrite IH by lia. cbn. lia.
    + rewrite IH by lia. lia.
Qed.

Lemma jelly_counts_one (sizes : list Z) :
  forall idx,
    map counts_quads (jelly_counts 1 sizes idx 0 0) = sizes.
Proof.
  induction sizes as [|n rest IH]; intros idx; [reflexivity|].
  cbn [jelly_counts Z.add Z.eqb Pos.eqb map]. now rewrite IH.
Qed.

Lemma jelly_totals (clk : Clock) (sizes : list Z) (B : Z) :
  exists stats,
    parse_jelly_batches clk sizes B
    = Ok (mkBatchStat (-1) 0 0 (clk 1%nat - clk 0%nat) :: stats)
    /\ zsum (map members_in_batch stats) = Z.of_nat (List.length sizes)
    /\ zsum (map quads_in_batch stats) = zsum sizes.
Proof.
  destruct (parse_jelly_counts clk sizes B) as [stats [Hp Hc]].
  exists stats. split; [exact Hp|]. split.
  - rewrite map_members_counts, Hc.
    rewrite (jelly_counts_members B sizes 0 0 0 0 0) by lia.
    rewrite group_batches_members. lia.
  - rewrite map_quads_counts, Hc, jelly_counts_quads by lia. lia.
Qed.

(** X6: for every list of graph sizes, batch size and clock the Jelly path
    returns; its first record is the load record (index -1, no member, no
    quad, the load time); the members of the batches after it add up to
    the number of graphs and their quads to the number of triples, none
    being lost.  With a batch size B >= 1 these batches have B members
    each, then one of G mod B members if that is not zero, and with B = 1
    their quads are the graph sizes in order. *)
Theorem X6_jelly_batches :
  forall (perf_counter : Clock) (graph_sizes : list Z) (batch_size : Z),
    let G := Z.of_nat (List.length graph_sizes) in
    exists stats,
      parse_jelly_batches perf_counter graph_sizes batch_size
      = Ok (mkBatchStat (-1) 0 0 (perf_counter 1%nat - perf_counter 0%nat)
              :: stats)
      /\ zsum (map members_in_batch stats) = G
      /\ zsum (map quads_in_batch stats) = zsum graph_sizes
      /\ (1 <= batch_size ->
          map members_in_batch stats
          = (repeat batch_size (Z.to_nat (G / batch_size))
             ++ (if G mod batch_size =? 0 then []
                 else [G mod batch_size]))%list)
      /\ (batch_size = 1 -> map quads_in_batch stats = graph_sizes).
Proof.
  intros clk sizes B G.
  destruct (parse_jelly_counts clk sizes B) as [stats [Hp Hc]].
  exists stats. split; [exact Hp|].
  assert (Hm : map members_in_batch stats
               = map counts_members (group_batches B sizes 0 0 0)).
  { rewrite map_members_counts, Hc. apply jelly_counts_members. lia. }
  split; [|split; [|split]].
  - rewrite Hm, group_batches_members. subst G. lia.
  - rewrite map_quads_counts, Hc, jelly_counts_quads by lia. lia.
  - intros HB. rewrite Hm.
    rewrite (group_batches_members_list B HB) by lia. reflexivity.
  - intros ->. rewrite map_quads_counts, Hc. apply jelly_counts_one.
Qed.

Lemma X6_jelly_batches_witness :
  exists stats,
    parse_jelly_batches sample_clock [3; 5; 2] 1
    = Ok (mkBatchStat (-1) 0 0 10 :: stats)
    /\ map quads_in_batch stats = [3; 5; 2].
Proof.
  destruct (X6_jelly_batches sample_clock [3; 5; 2] 1)
    as [stats [Hp [_ [_ [_ Hq]]]]].
  exists stats. split; [exact Hp | exact (Hq eq_refl)].
Defined.

Lemma zsum_permutation (l l' : list Z) :
  Permutation l l' -> zsum l = zsum l'.
Proof.
  induction 1 as [|x l l' _ IH|x y l|l l' l'' _ IH1 _ IH2].
  - reflexivity.
  - change (x + zsum l = x + zsum l'). now rewrite IH.
  - change (y + (x + zsum l) = x + (y + zsum l)). lia.
  - now rewrite IH1.
Qed.

(** X7: the two benchmarked paths on the same data.  [Dataset.contexts]
    hands over the graphs of the members and, always, the default graph.
    For clean data and a batch size B >= 1, when the graphs are, in any
    order, one per written group with as many triples as the group has
    statements and the empty default graph, the members of the TREE
    batches add up to the number of groups G and those of the Jelly
    batches (the load record apart) to G + 1; the Jelly quads add up to
    all statements, and the TREE quads to the same less the statements of
    the last group when B divides G. *)
Theorem X7_tree_and_jelly_batches :
  forall (clock1 clock2 : Clock) (d : Dict) (batch_size : Z)
         (graph_sizes : list Z),
    clean_dict d = true -> 1 <= batch_size ->
    let counts := statement_counts d in
    let G := Z.of_nat (List.length counts) in
    Permutation graph_sizes (0 :: counts) ->
    exists content tree_stats load jelly_stats,
      write_tree_profile_page_gz d = Ok content
      /\ parse_tree_profile_batches clock1 content batch_size = Ok tree_stats
      /\ parse_jelly_batches clock2 graph_sizes batch_size
         = Ok (load :: jelly_stats)
      /\ zsum (map members_in_batch tree_stats) = G
      /\ zsum (map members_in_batch jelly_stats) = G + 1
      /\ zsum (map quads_in_batch jelly_stats) = zsum counts
      /\ zsum (map quads_in_batch tree_stats)
         = zsum (map quads_in_batch jelly_stats)
           - (if G mod batch_size =? 0 then last counts 0 else 0).
Proof.
  intros c1 c2 d B sizes Hd HB counts G Hperm.
  destruct (page_counts c1 d B Hd) as [content [ts [Hw [Hp Hc]]]].
  destruct (jelly_totals c2 sizes B) as [js [Hj [Hjm Hjq]]].
  fold counts in Hc.
  exists content, ts, (mkBatchStat (-1) 0 0 (c2 1%nat - c2 0%nat)), js.
  split; [exact Hw|]. split; [exact Hp|]. split; [exact Hj|].
  assert (Hq : zsum (map quads_in_batch js) = zsum counts).
  { rewrite Hjq, (zsum_permutation _ _ Hperm). reflexivity. }
  split; [|split; [|split]].
  - rewrite map_members_counts, Hc, group_batches_members. subst G. lia.
  - rewrite Hjm, (Permutation_length Hperm). subst G. cbn [List.length]. lia.
  - exact Hq.
  - rewrite Hq, map_quads_counts, Hc.
    rewrite (group_batches_quads B HB) by lia.
    subst G. cbn [Z.add]. destruct (_ mod B =? 0); lia.
Qed.

Lemma X7_tree_and_jelly_batches_witness :
  exists content tree_stats load jelly_stats,
    write_tree_profile_page_gz scenario_dict = Ok content
    /\ parse_tree_profile_batches sample_clock content 3 = Ok tree_stats
    /\ parse_jelly_batches sample_clock
         (statement_counts scenario_dict ++ [0]) 3
       = Ok (load :: jelly_stats)
    /\ zsum (map members_in_batch tree_stats) = 3
    /\ zsum (map members_in_batch jelly_stats) = 4.
Proof.
  destruct (X7_tree_and_jelly_batches sample_clock sample_clock scenario_dict
              3 (statement_counts scenario_dict ++ [0])
              ltac:(vm_compute; reflexivity) ltac:(lia)
              (Permutation_sym (Permutation_cons_append _ 0)))
    as [content [ts [load [js [Hw [Hp [Hj [Hm [Hjm _]]]]]]]]].
  exists content, ts, load, js.
  split; [exact Hw|]. split; [exact Hp|]. split; [exact Hj|].
  split; [exact Hm | exact Hjm].
Defined.

(** ** The report *)

Lemma zsum_nil_of_members (stats : list BatchStat) :
  stats = [] -> zsum (map members_in_batch stats) = 0.
Proof. now intros ->. Qed.

(** X8: [summarize] on the result of the Jelly path leaves the load record
    out of its totals: it prints no totals when the dataset has no graph,
    and otherwise the number of graphs as members and the number of
    triples as quads. *)
Theorem X8_summarize_jelly :
  forall (perf_counter : Clock) (graph_sizes : list Z) (batch_size : Z),
  exists stats,
    parse_jelly_batches perf_counter graph_sizes batch_size = Ok stats
    /\ summarize_offset stats = 1%nat
    /\ (graph_sizes = [] -> summarize_totals stats = None)
    /\ (graph_sizes <> [] ->
        exists time,
          summarize_totals stats
          = Some (Z.of_nat (List.length graph_sizes), zsum graph_sizes, time)).
Proof.
  intros clk sizes B.
  destruct (jelly_totals clk sizes B) as [stats [Hp [Hm Hq]]].
  eexists. split; [exact Hp|]. split; [reflexivity|]. split.
  - intros ->. cbn in Hm. unfold summarize_totals. cbn [summarize_offset
      batch_index Z.eqb Pos.eqb List.length].
    destruct stats as [|b stats]; [reflexivity|].
    destruct (parse_jelly_counts clk [] B) as [s' [Hp' Hc']].
    rewrite Hp in Hp'. injection Hp' as <-. cbn in Hc'. discriminate.
  - intros Hne. unfold summarize_totals. cbn [summarize_offset batch_index
      Z.eqb Pos.eqb List.length skipn].
    destruct stats as [|b stats].
    + cbn in Hm. destruct sizes; [congruence | cbn in Hm; lia].
    + cbn [Nat.ltb Nat.leb]. rewrite Hm, Hq. eexists. reflexivity.
Qed.

Lemma X8_summarize_jelly_witness :
  exists stats,
    parse_jelly_batches sample_clock [3; 5; 2] 2 = Ok stats
    /\ (exists time, summarize_totals stats = Some (3, 10, time)).
Proof.
  destruct (X8_summarize_jelly sample_clock [3; 5; 2] 2)
    as [stats [Hp [_ [_ Ht]]]].
  exists stats. split; [exact Hp|]. apply Ht. discriminate.
Defined.

Lemma parse_indices_members (clk : Clock) (content : string) (B : Z) :
  exists stats,
    parse_tree_profile_batches clk content B = Ok stats
    /\ map batch_index stats = map Z.of_nat (seq 0 (List.length stats))
    /\ zsum (map members_in_batch stats)
       = Z.of_nat (List.length (filter is_marker (read_lines content))).
Proof.
  destruct (parse_stream_counts clk content B) as [stats [Hp Hc]].
  exists stats. split; [exact Hp|]. split.
  - transitivity (map (fun c : Counts => fst (fst c)) (map stat_counts stats)).
    + rewrite map_map. reflexivity.
    + rewrite Hc, group_batches_indices, <- Hc, length_map.
      apply map_ext. intros k. lia.
  - rewrite map_members_counts, Hc, group_batches_members.
    rewrite stream_counts_length. lia.
Qed.

(** X9: [summarize] on the result of the TREE parser, for every text and
    batch size, leaves no record out; it prints no totals when no line of
    the text starts with the marker prefix, and otherwise the number of
    such lines as total of members. *)
Theorem X9_summarize_tree :
  forall (perf_counter : Clock) (content : string) (batch_size : Z),
    let M := Z.of_nat (List.length (filter is_marker (read_lines content))) in
    exists stats,
      parse_tree_profile_batches perf_counter content batch_size = Ok stats
      /\ summarize_offset stats = 0%nat
      /\ (M = 0 -> summarize_totals stats = None)
      /\ (0 < M ->
          exists quads time, summarize_totals stats = Some (M, quads, time)).
Proof.
  intros clk content B M.
  destruct (parse_indices_members clk content B) as [stats [Hp [Hi Hm]]].
  fold M in Hm. exists stats. split; [exact Hp|].
  assert (Ho : summarize_offset stats = 0%nat).
  { destruct stats as [|b stats]; [reflexivity|].
    cbn in Hi. injection Hi as Hb _. cbn. now rewrite Hb. }
  split; [exact Ho|]. unfold summarize_totals. rewrite Ho. cbn [skipn]. split.
  - intros H0. destruct stats as [|b stats]; [reflexivity|].
    exfalso.
    destruct (parse_stream_counts clk content B) as [s' [Hp' Hc']].
    rewrite Hp in Hp'. injection Hp' as <-.
    assert (Hl : stream_counts content = []).
    { apply length_zero_iff_nil. rewrite stream_counts_length.
      subst M. lia. }
    rewrite Hl in Hc'. cbn in Hc'. discriminate.
  - intros Hpos. destruct stats as [|b stats]; [cbn in Hm; lia|].
    cbn [List.length Nat.ltb Nat.leb]. rewrite Hm.
    eexists. eexists. reflexivity.
Qed.

Lemma X9_summarize_tree_witness :
  exists stats,
    parse_tree_profile_batches sample_clock
      (marker_line "a" ++ "x y ." ++ NL ++ marker_line "b") 5 = Ok stats
    /\ (exists quads time, summarize_totals stats = Some (2, quads, time)).
Proof.
  destruct (X9_summarize_tree sample_clock
              (marker_line "a" ++ "x y ." ++ NL ++ marker_line "b") 5)
    as [stats [Hp [_ [_ Ht]]]].
  exists stats. split; [exact Hp|]. apply Ht. vm_compute. reflexivity.
Defined.

(** ** The generator *)

Section GeneratorShape.

Context {G : Type} `{Random G}.

Lemma string_of_list_ascii_length (cs : list ascii) :
  String.length (string_of_list_ascii cs) = List.length cs.
Proof. induction cs as [|c cs IH]; [reflexivity | cbn; now rewrite IH]. Qed.

Lemma choices_shape (population : list ascii) :
  population <> [] ->
  forall k g,
    List.length (fst (choices population k g)) = k
    /\ Forall (fun c => In c population) (fst (choices population k g)).
Proof.
  intros Hne. induction k as [|k IH]; intros g; [now split|].
  cbn [choices]. unfold choice.
  pose proof (randbelow_lt (N.of_nat (List.length population)) g) as Hlt.
  destruct (randbelow (N.of_nat (List.length population)) g) as [i g1].
  specialize (IH g1). destruct (choices population k g1) as [cs g2].
  cbn [fst] in *. destruct IH as [Hl Hf]. split; [cbn; now rewrite Hl|].
  constructor; [|exact Hf]. apply nth_In.
  assert (0 < N.of_nat (List.length population))%N.
  { destruct population; [congruence | cbn; lia]. }
  specialize (Hlt ltac:(assumption)). lia.
Qed.

Lemma randint_bounds (a b : Z) (g : G) :
  a <= b -> a <= fst (randint_draw a b g) <= b.
Proof.
  intros Hab. unfold randint_draw.
  pose proof (randbelow_lt (Z.to_N (b - a + 1)) g ltac:(lia)) as Hlt.
  destruct (randbelow (Z.to_N (b - a + 1)) g) as [i g']. cbn [fst] in *. lia.
Qed.

Lemma extra_quads_length (member : string) (k : nat) :
  forall g, List.length (fst (extra_quads member k g)) = k.
Proof.
  induction k as [|k IH]; intros g; [reflexivity|].
  cbn [extra_quads].
  destruct (choice _ _ g) as [name g1].
  destruct (random_lt_half g1) as [coin g2].
  destruct coin.
  - destruct (rand_label 10 g2) as [lbl g3]. specialize (IH g3).
    destruct (extra_quads member k g3) as [qs g4]. cbn in *. now rewrite IH.
  - destruct (rand_label 6 g2) as [lbl g3]. specialize (IH g3).
    destruct (extra_quads member k g3) as [qs g4]. cbn in *. now rewrite IH.
Qed.

Lemma member_quads_length (member : string) (n : Z) (g : G) :
  List.length (fst (member_quads member n g)) = Z.to_nat (Z.max 3 n).
Proof.
  unfold member_quads.
  destruct (randint_draw 0 1000000 g) as [v g1].
  pose proof (extra_quads_length member (Z.to_nat (Z.max 0 (n - 3))) g1) as He.
  destruct (extra_quads member _ g1) as [extra g2]. cbn [fst List.length] in *.
  rewrite He. lia.
Qed.

End GeneratorShape.

(** X10: for every random source, [rand_label n] is a string of exactly
    [n] characters, each an ASCII letter. *)
Theorem X10_rand_label_letters :
  forall (G : Type) (R : Random G) (n : nat) (g : G),
    String.length (fst (rand_label n g)) = n
    /\ Forall (fun c => In c ascii_letters)
              (list_ascii_of_string (fst (rand_label n g))).
Proof.
  intros G R n g. unfold rand_label.
  destruct (choices_shape ascii_letters ltac:(discriminate) n g) as [Hl Hf].
  destruct (choices ascii_letters n g) as [cs g']. cbn [fst] in *.
  rewrite string_of_list_ascii_length, list_ascii_of_string_of_list_ascii.
  now split.
Qed.

(** ** Member IRIs *)

Lemma zeros_digits (k : nat) : all_chars isdigit (zeros k) = true.
Proof. induction k as [|k IH]; [reflexivity | exact IH]. Qed.

Lemma uint_of_string_zeros (k : nat) (s : string) :
  NilEmpty.uint_of_string (zeros k ++ s)
  = option_map (Nat.iter k Decimal.D0) (NilEmpty.uint_of_string s).
Proof.
  induction k as [|k IH]; cbn [zeros append NilEmpty.uint_of_string Nat.iter].
  - now destruct (NilEmpty.uint_of_string s).
  - rewrite IH. now destruct (NilEmpty.uint_of_string s).
Qed.

Lemma of_uint_zeros (k : nat) (u : Decimal.uint) :
  Z.of_uint (Nat.iter k Decimal.D0 u) = Z.of_uint u.
Proof. induction k as [|k IH]; [reflexivity | exact IH]. Qed.

(** [int] of a zero-padded numeral, with or without sign. *)
Lemma py_int_padded (neg : bool) (k : nat) (p : positive) :
  py_int ((if neg then "-" else EmptyString)
          ++ zeros k ++ NilEmpty.string_of_uint (Pos.to_uint p))
  = Some (if neg then Z.neg p else Z.pos p).
Proof.
  set (ds := NilEmpty.string_of_uint (Pos.to_uint p)).
  assert (Hd : all_chars isdigit (zeros k ++ ds) = true).
  { rewrite all_chars_app, zeros_digits. apply string_of_uint_digits. }
  assert (Hne : zeros k ++ ds <> EmptyString).
  { pose proof (string_of_uint_nonempty _
                  (DecimalPos.Unsigned.to_uint_nonnil p)) as Hn.
    fold ds in Hn. destruct k; cbn; [exact Hn | discriminate]. }
  assert (Hu : NilEmpty.uint_of_string (zeros k ++ ds)
               = Some (Nat.iter k Decimal.D0 (Pos.to_uint p))).
  { rewrite uint_of_string_zeros. subst ds. now rewrite NilEmpty.usu. }
  assert (Hz : Z.of_uint (Nat.iter k Decimal.D0 (Pos.to_uint p)) = Z.pos p).
  { rewrite of_uint_zeros. unfold Z.of_uint.
    now rewrite DecimalPos.Unsigned.of_to. }
  destruct (zeros k ++ ds) as [|c s] eqn:Es; [congruence|].
  assert (Hsp : all_chars (fun c => negb (int_isspace c)) (String c s) = true).
  { revert Hd. apply all_chars_impl. intros a Ha.
    now rewrite (isdigit_not_int_space _ Ha). }
  pose proof Hd as Hd'. cbn in Hd'. apply andb_prop in Hd' as [Hc _].
  unfold py_int. destruct neg.
  - rewrite strip_by_nonspace
      by (cbn [append all_chars] in *; now rewrite Hsp).
    cbn [append strip_sign].
    rewrite (group_digits_all _ Hd) by discriminate.
    now rewrite Hu, Hz.
  - cbn [append]. rewrite (strip_by_nonspace _ _ Hsp), (strip_sign_digit _ _ Hc).
    rewrite (group_digits_all _ Hd) by discriminate.
    now rewrite Hu, Hz.
Qed.

Lemma str_int_pos (p : positive) :
  str_int (Z.pos p) = NilEmpty.string_of_uint (Pos.to_uint p).
Proof.
  unfold str_int. cbn [Z.to_int NilZero.string_of_int].
  unfold NilZero.string_of_uint.
  pose proof (DecimalPos.Unsigned.to_uint_nonnil p) as Hn.
  destruct (Pos.to_uint p); [congruence | reflexivity ..].
Qed.

Lemma py_int_format_05d (i : Z) : py_int (format_05d i) = Some i.
Proof.
  unfold format_05d, zero_pad. destruct i as [|p|p].
  - reflexivity.
  - cbn [Z.ltb Z.compare]. rewrite str_int_pos.
    apply (py_int_padded false).
  - cbn [Z.ltb Z.compare Z.opp]. rewrite str_int_pos.
    apply (py_int_padded true).
Qed.

Lemma append_inj_l (p a b : string) : p ++ a = p ++ b -> a = b.
Proof.
  induction p as [|c p IH]; cbn; [trivial|].
  intros Heq. injection Heq as Heq. now apply IH.
Qed.

Lemma make_member_iri_inj (i j : Z) :
  make_member_iri i = make_member_iri j -> i = j.
Proof.
  unfold make_member_iri. intros Heq. apply append_inj_l in Heq.
  pose proof (py_int_format_05d i) as Hi. rewrite Heq in Hi.
  rewrite py_int_format_05d in Hi. congruence.
Qed.

Lemma zeros_length (k : nat) : String.length (zeros k) = k.
Proof. induction k as [|k IH]; [reflexivity | cbn; now rewrite IH]. Qed.

Lemma append_length (a b : string) :
  String.length (a ++ b) = (String.length a + String.length b)%nat.
Proof. induction a as [|c a IH]; [reflexivity | cbn; now rewrite IH]. Qed.

Lemma format_05d_length (i : Z) : (5 <= String.length (format_05d i))%nat.
Proof.
  unfold format_05d, zero_pad.
  destruct (i <? 0); cbn [String.length];
    rewrite append_length, zeros_length; lia.
Qed.

(** X11: [make_member_iri] is [MEM_BASE] followed by at least five
    characters that [int] reads back as [i], for every integer [i]; so
    different indices give different member IRIs. *)
Theorem X11_member_iri_round_trip :
  (forall i, make_member_iri i = MEM_BASE ++ format_05d i
             /\ py_int (format_05d i) = Some i
             /\ (5 <= String.length (format_05d i))%nat)
  /\ (forall i j, make_member_iri i = make_member_iri j -> i = j).
Proof.
  split.
  - intros i. split; [reflexivity|]. split.
    + apply py_int_format_05d.
    + apply format_05d_length.
  - apply make_member_iri_inj.
Qed.

Lemma X11_member_iri_round_trip_witness :
  make_member_iri 42 = "https://example.org/ldes/member/00042" /\ 42 = 42.
Proof.
  split; [reflexivity|].
  apply (proj2 X11_member_iri_round_trip 42 42). reflexivity.
Defined.

(** ** The quads of a member *)

Lemma str_int_all (p : ascii -> bool) (z : Z) :
  (forall c, isdigit c = true -> p c = true) -> p "-"%char = true ->
  all_chars p (str_int z) = true.
Proof.
  intros Hd Hm.
  assert (Hu : forall d, all_chars p (NilZero.string_of_uint d) = true).
  { intros d. unfold NilZero.string_of_uint.
    assert (H0 : all_chars p (NilEmpty.string_of_uint d) = true).
    { apply (all_chars_impl isdigit); [exact Hd|].
      apply string_of_uint_digits. }
    destruct d; [cbn; rewrite Hd; reflexivity | exact H0 ..]. }
  unfold str_int. destruct (Z.to_int z) as [d|d];
    cbn [NilZero.string_of_int].
  - apply Hu.
  - cbn [all_chars]. now rewrite Hm, Hu.
Qed.

Lemma format_05d_all (p : ascii -> bool) (i : Z) :
  (forall c, isdigit c = true -> p c = true) -> p "-"%char = true ->
  all_chars p (format_05d i) = true.
Proof.
  intros Hd Hm. unfold format_05d, zero_pad.
  assert (Hz : forall k, all_chars p (zeros k) = true).
  { intros k. apply (all_chars_impl isdigit); [exact Hd|]. apply zeros_digits. }
  destruct (i <? 0); cbn [all_chars]; rewrite ?Hm, all_chars_app, Hz;
    cbn [andb]; now apply str_int_all.
Qed.

Lemma isdigit_not_slash (c : ascii) :
  isdigit c = true -> negb (Ascii.eqb c "/") = true.
Proof.
  destruct c as [b0 b1 b2 b3 b4 b5 b6 b7].
  destruct b0, b1, b2, b3, b4, b5, b6, b7; vm_compute; congruence.
Qed.

Lemma last_field_from_nosep (sep : ascii) (x : string) :
  all_chars (fun c => negb (Ascii.eqb c sep)) x = true ->
  forall acc, last_field_from acc sep x = acc ++ x.
Proof.
  induction x as [|c x IH]; intros Hx acc.
  - cbn. now rewrite append_nil_r.
  - cbn in Hx. apply andb_prop in Hx as [Hc Hx].
    apply negb_true_iff in Hc. cbn [last_field_from]. rewrite Hc.
    rewrite (IH Hx), append_assoc. reflexivity.
Qed.

Lemma last_field_after (sep : ascii) (pre x : string) :
  all_chars (fun c => negb (Ascii.eqb c sep)) x = true ->
  forall acc, last_field_from acc sep (pre ++ String sep x) = x.
Proof.
  intros Hx. induction pre as [|c pre IH]; intros acc.
  - cbn [append last_field_from]. rewrite Ascii.eqb_refl.
    now rewrite (last_field_from_nosep sep x Hx).
  - cbn [append last_field_from]. destruct (Ascii.eqb c sep); apply IH.
Qed.

Lemma member_label (i : Z) :
  last_field (make_member_iri i) "/" = format_05d i.
Proof.
  unfold last_field, make_member_iri.
  change (MEM_BASE ++ format_05d i)
    with ("https://example.org/ldes/member" ++ String "/" (format_05d i)).
  apply last_field_after.
  apply format_05d_all; [apply isdigit_not_slash | reflexivity].
Qed.

(** X12: for every random source, member IRI and [n_triples],
    [member_quads] returns max(3, n_triples) quads: the type quad, the
    label quad whose literal is [Member ] followed by the text after the
    last slash of the IRI, the value quad whose literal is the decimal of
    an integer between 0 and 1000000 typed xsd:integer, then the extra
    quads.  For the member made by [make_member_iri i] the label is
    [Member ] followed by the zero-padded index. *)
Theorem X12_member_quads_shape :
  forall (G : Type) (R : Random G) (member : string) (n_triples : Z) (g : G),
    List.length (fst (member_quads member n_triples g))
    = Z.to_nat (Z.max 3 n_triples)
    /\ (exists v extra,
           0 <= v <= 1000000
           /\ fst (member_quads member n_triples g)
              = (URIRef member, URIRef RDF_type, URIRef (EX "Member"),
                 URIRef member)
                :: (URIRef member, URIRef RDFS_label,
                    Literal (mkLit ("Member " ++ last_field member "/")
                                   None None),
                    URIRef member)
                :: (URIRef member, URIRef (EX "value"),
                    Literal (mkLit (str_int v) (Some XSD_integer) None),
                    URIRef member)
                :: extra)
    /\ (forall i, last_field (make_member_iri i) "/" = format_05d i).
Proof.
  intros G R member n g. split; [apply member_quads_length|]. split.
  - unfold member_quads.
    pose proof (randint_bounds 0 1000000 g ltac:(lia)) as Hv.
    destruct (randint_draw 0 1000000 g) as [v g1]. cbn [fst] in Hv.
    destruct (extra_quads member _ g1) as [extra g2].
    exists v, extra. split; [exact Hv | reflexivity].
  - apply member_label.
Qed.

(** ** The generated dictionary *)

Lemma dict_set_fresh (m : string) (v : list Quad) (d : Dict) :
  ~ In m (dict_keys d) -> dict_set m v d = (d ++ [(m, v)])%list.
Proof.
  induction d as [|[k w] d IH]; intros Hn; [reflexivity|].
  cbn [dict_set]. destruct (k =? m)%string eqn:E.
  - apply String.eqb_eq in E. destruct Hn. now left.
  - cbn [app]. f_equal. apply IH. intros Hin. apply Hn. now right.
Qed.

Lemma dict_get_in (d : Dict) (k : string) (v : list Quad) :
  NoDup (dict_keys d) -> In (k, v) d -> dict_get k d = Some v.
Proof.
  induction d as [|[k' v'] d IH]; intros Hnd Hin; [contradiction|].
  cbn in Hnd. inversion Hnd as [|? ? Hk Hnd']; subst.
  cbn [dict_get]. destruct Hin as [Heq|Hin].
  - injection Heq as -> ->. now rewrite String.eqb_refl.
  - destruct (k' =? k)%string eqn:E.
    + apply String.eqb_eq in E. subst k'. destruct Hk.
      unfold dict_keys. apply in_map_iff. now exists (k, v).
    + now apply IH.
Qed.

(** A dictionary with distinct keys is read back as it is. *)
Lemma written_groups_nodup (d : Dict) :
  NoDup (dict_keys d) -> written_groups d = d.
Proof.
  intros Hnd. unfold written_groups, dict_keys. rewrite map_map.
  rewrite <- (map_id d) at 2. apply map_ext_in.
  intros [k v] Hin. cbn [fst]. now rewrite (dict_get_in d k v Hnd Hin).
Qed.

Lemma NoDup_map_injective {A B : Type} (f : A -> B) (l : list A) :
  (forall a b, f a = f b -> a = b) -> NoDup l -> NoDup (map f l).
Proof.
  intros Hf Hl. induction Hl as [|a l Ha _ IH]; [constructor|].
  cbn [map]. constructor; [|exact IH].
  intros Hin. apply in_map_iff in Hin as [b [Hb Hin]].
  apply Hf in Hb. now subst b.
Qed.

Section Generated.

Context {G : Type} `{Random G}.

Variables tmin tmax : Z.

Lemma generate_from_items (count : nat) :
  forall first d g,
    (forall k, In k (dict_keys d) ->
               exists j, j < first /\ k = make_member_iri j) ->
    exists items,
      fst (generate_from count first tmin tmax d g) = (d ++ items)%list
      /\ map fst items
         = map (fun k => make_member_iri (first + Z.of_nat k)) (seq 0 count)
      /\ Forall (generated_item tmin tmax) items.
Proof.
  induction count as [|count IH]; intros first d g Hd.
  - exists []. cbn. now rewrite app_nil_r.
  - cbn [generate_from].
    pose proof (randint_bounds tmin tmax g) as Hn.
    destruct (randint_draw tmin tmax g) as [n g1]. cbn [fst] in Hn.
    destruct (member_quads (make_member_iri first) n g1) as [qs g2] eqn:Eq.
    rewrite dict_set_fresh.
    2:{ intros Hin. destruct (Hd _ Hin) as [j [Hj Heq]].
        apply make_member_iri_inj in Heq. lia. }
    destruct (IH (first + 1) (d ++ [(make_member_iri first, qs)])%list g2)
      as [items [Hg [Hk Hi]]].
    { intros k Hin. unfold dict_keys in Hin. rewrite map_app in Hin.
      apply in_app_or in Hin as [Hin|Hin].
      - destruct (Hd k Hin) as [j [Hj ->]]. exists j. split; [lia|reflexivity].
      - cbn in Hin. destruct Hin as [<-|[]]. exists first.
        split; [lia | reflexivity]. }
    exists ((make_member_iri first, qs) :: items). split; [|split].
    + rewrite Hg, <- app_assoc. reflexivity.
    + cbn [map seq]. rewrite Hk, Z.add_0_r. f_equal.
      rewrite <- seq_shift, map_map. apply map_ext. intros k.
      f_equal. lia.
    + constructor; [|exact Hi]. exists n, g1. cbn [fst snd].
      rewrite Eq. split; [reflexivity | exact Hn].
Qed.

Lemma generate_shape (num_members : nat) (g : G) :
  let d := fst (generate num_members tmin tmax g) in
  dict_keys d
  = map (fun k => make_member_iri (Z.of_nat k)) (seq 0 num_members)
  /\ NoDup (dict_keys d)
  /\ written_groups d = d
  /\ (tmin <= tmax ->
      Forall (fun c => Z.max 3 tmin <= c <= Z.max 3 tmax)
             (statement_counts d)).
Proof.
  intros d. subst d. unfold generate.
  destruct (generate_from_items num_members 0 [] g) as [items [Hg [Hk Hi]]].
  { intros k []. }
  rewrite Hg. cbn [app].
  assert (Hkeys : dict_keys items
                  = map (fun k => make_member_iri (Z.of_nat k))
                        (seq 0 num_members)).
  { unfold dict_keys. rewrite Hk. apply map_ext. intros k. f_equal. }
  assert (Hnd : NoDup (dict_keys items)).
  { rewrite Hkeys. apply NoDup_map_injective; [|apply seq_NoDup].
    intros a b Hab. apply make_member_iri_inj in Hab. lia. }
  split; [exact Hkeys|]. split; [exact Hnd|].
  split; [now apply written_groups_nodup|].
  intros Hle. unfold statement_counts.
  rewrite (written_groups_nodup items Hnd).
  apply Forall_forall. intros c Hc.
  apply in_map_iff in Hc as [kv [<- Hin]].
  destruct (proj1 (Forall_forall _ _) Hi kv Hin) as [n [g' [-> Hn]]].
  rewrite member_quads_length. specialize (Hn Hle). lia.
Qed.

End Generated.

Section GeneratedChecked.

Context {G : Type} `{Random G}.

Lemma randint_nonempty (a b : Z) (g : G) :
  a <= b -> randint a b g = Ok (randint_draw a b g).
Proof.
  intros Hab. unfold randint.
  destruct (b <? a) eqn:E; [apply Z.ltb_lt in E; lia | reflexivity].
Qed.

Lemma randint_empty (a b : Z) (g : G) :
  b < a -> randint a b g = Raise (ValueError (EmptyRange a b)).
Proof.
  intros Hab. unfold randint.
  destruct (b <? a) eqn:E; [reflexivity | apply Z.ltb_ge in E; lia].
Qed.

Lemma main_generate_from_ordered (tmin tmax : Z) (count : nat) :
  tmin <= tmax ->
  forall first d g,
    main_generate_from count first tmin tmax d g
    = Ok (generate_from count first tmin tmax d g).
Proof.
  intros Hle. induction count as [|count IH]; intros first d g.
  - reflexivity.
  - cbn [main_generate_from generate_from].
    rewrite (randint_nonempty tmin tmax g Hle). cbn [bind].
    destruct (randint_draw tmin tmax g) as [n g1]. cbn [fst snd].
    destruct (member_quads (make_member_iri first) n g1) as [qs g2].
    apply IH.
Qed.

End GeneratedChecked.

(** X13: step 1 of [main] for [num_members] members, for every random
    source.  When the bounds satisfy tmin <= tmax it returns a dictionary
    whose keys are the member IRIs of 0, 1, ..., [num_members] - 1 in this
    order, all different, so no group overwrites another and the writer
    visits each key with its own quads, and every group has between
    max(3, tmin) and max(3, tmax) statements.  When tmax < tmin and there
    is a member to make, [random.randint] raises ValueError and no
    dictionary is built. *)
Theorem X13_generated_dictionary :
  forall (G : Type) (R : Random G) (num_members : nat) (tmin tmax : Z) (g : G),
    (tmin <= tmax ->
     let d := fst (generate num_members tmin tmax g) in
     main_generate num_members tmin tmax g
     = Ok (generate num_members tmin tmax g)
     /\ dict_keys d
        = map (fun k => make_member_iri (Z.of_nat k)) (seq 0 num_members)
     /\ NoDup (dict_keys d)
     /\ written_groups d = d
     /\ Forall (fun c => Z.max 3 tmin <= c <= Z.max 3 tmax)
               (statement_counts d))
    /\ (tmax < tmin -> num_members <> 0%nat ->
        main_generate num_members tmin tmax g
        = Raise (ValueError (EmptyRange tmin tmax)))
    /\ main_generate 0 tmin tmax g = Ok ([], g).
Proof.
  intros G R num_members tmin tmax g. split; [|split].
  - intros Hle d.
    destruct (generate_shape tmin tmax num_members g)
      as [Hk [Hnd [Hw Hb]]].
    split; [now apply main_generate_from_ordered|].
    split; [exact Hk|]. split; [exact Hnd|]. split; [exact Hw|].
    now apply Hb.
  - intros Hlt Hn. destruct num_members as [|n]; [congruence|].
    unfold main_generate. cbn [main_generate_from].
    now rewrite randint_empty.
  - reflexivity.
Qed.

Lemma X13_generated_dictionary_witness :
  Forall (fun c => 6 <= c <= 30)
         (statement_counts
            (fst (generate 4 TRIPLES_PER_MEMBER_MIN TRIPLES_PER_MEMBER_MAX
                           7%N)))
  /\ main_generate 1 30 6 7%N = Raise (ValueError (EmptyRange 30 6)).
Proof.
  split.
  - apply (proj1 (X13_generated_dictionary N sample_random 4
                    TRIPLES_PER_MEMBER_MIN TRIPLES_PER_MEMBER_MAX 7%N)).
    vm_compute. discriminate.
  - apply (proj1 (proj2 (X13_generated_dictionary N sample_random 1 30 6
                           7%N))).
    + lia.
    + discriminate.
Defined.

(** ** When the writer succeeds *)

Lemma term_to_nq_value_error (t : Term) (e : exn) :
  term_to_nq t = Raise e -> exists msg, e = ValueError msg.
Proof.
  destruct t as [iri|l|id|repr]; cbn [term_to_nq].
  - discriminate.
  - destruct (match datatype l with
              | Some dt => (dt =? XSD_integer)%string
              | None => false
              end).
    + destruct (py_int (lexical l)); [discriminate|].
      intros [= <-]. eexists. reflexivity.
    + destruct (language l) as [[|c r]|]; discriminate.
  - intros [= <-]. eexists. reflexivity.
  - intros [= <-]. eexists. reflexivity.
Qed.

Lemma quad_line_value_error (q : Quad) (e : exn) :
  quad_line q = Raise e -> exists msg, e = ValueError msg.
Proof.
  destruct q as [[[s p] o] g]. unfold quad_line.
  destruct (term_to_nq s) eqn:Es; cbn [bind];
    [|intros [= <-]; exact (term_to_nq_value_error _ _ Es)].
  destruct (term_to_nq p) eqn:Ep; cbn [bind];
    [|intros [= <-]; exact (term_to_nq_value_error _ _ Ep)].
  destruct (term_to_nq o) eqn:Eo; cbn [bind];
    [|intros [= <-]; exact (term_to_nq_value_error _ _ Eo)].
  destruct (term_to_nq g) eqn:Eg; cbn [bind];
    [discriminate|intros [= <-]; exact (term_to_nq_value_error _ _ Eg)].
Qed.

Lemma write_quads_spec (qs : list Quad) :
  forall f,
    if forallb renders qs
    then write_quads qs f
         = Ok (f ++ String.concat EmptyString (map quad_line_text qs))
    else exists msg, write_quads qs f = Raise (ValueError msg).
Proof.
  induction qs as [|q qs IH]; intros f.
  - cbn. now rewrite append_nil_r.
  - cbn [forallb write_quads map]. unfold renders at 1, quad_line_text at 1.
    destruct (quad_line q) as [l|e] eqn:E; cbn [bind andb].
    + specialize (IH (f ++ l)). destruct (forallb renders qs).
      * rewrite IH, concat_cons. now rewrite append_assoc.
      * exact IH.
    + destruct (quad_line_value_error q e E) as [msg ->]. now exists msg.
Qed.

Lemma dict_get_key (d : Dict) (m : string) :
  In m (dict_keys d) -> exists qs, dict_get m d = Some qs.
Proof.
  induction d as [|[k v] d IH]; intros Hin; [contradiction|].
  cbn [dict_get]. destruct (k =? m)%string eqn:E; [now exists v|].
  destruct Hin as [Hk|Hin]; [|now apply IH].
  cbn in Hk. subst m. now rewrite String.eqb_refl in E.
Qed.

Lemma write_members_spec (d : Dict) (keys : list string) :
  (forall m, In m keys -> In m (dict_keys d)) ->
  forall f,
    let groups := map (fun m => (m, match dict_get m d with
                                    | Some qs => qs
                                    | None => []
                                    end)) keys in
    if forallb (fun grp => forallb renders (snd grp)) groups
    then write_members keys d f
         = Ok (f ++ String.concat EmptyString (flat_map group_lines groups))
    else exists msg, write_members keys d f = Raise (ValueError msg).
Proof.
  induction keys as [|m keys IH]; intros Hk f.
  - cbn. now rewrite append_nil_r.
  - destruct (dict_get_key d m (Hk m (or_introl eq_refl))) as [qs Eq].
    cbn [map forallb write_members flat_map snd]. rewrite Eq.
    pose proof (write_quads_spec qs (f ++ marker_line m)) as Hq.
    destruct (forallb renders qs); cbn [andb].
    + rewrite Hq. cbn [bind].
      specialize (IH (fun m' Hm' => Hk m' (or_intror Hm'))
                     ((f ++ marker_line m)
                      ++ String.concat EmptyString (map quad_line_text qs))).
      cbn zeta in IH.
      destruct (forallb _ (map _ keys)).
      * rewrite IH.
        change (group_lines (m, qs))
          with (marker_line m :: map quad_line_text qs).
        rewrite concat_app, concat_cons. now rewrite !append_assoc.
      * exact IH.
    + destruct Hq as [msg ->]. now exists msg.
Qed.

(** X14: the writer never fails on a key: it returns the hypermedia block
    followed by the lines of every group when [term_to_nq] renders all
    four terms of every quad it visits, and raises ValueError otherwise. *)
Theorem X14_writer_succeeds_iff_terms_render :
  forall d : Dict,
    (all_render d = true ->
     write_tree_profile_page_gz d
     = Ok (String.concat EmptyString hypermedia_block
           ++ String.concat EmptyString
                (flat_map group_lines (written_groups d))))
    /\ (all_render d = false ->
        exists msg, write_tree_profile_page_gz d = Raise (ValueError msg)).
Proof.
  intros d.
  pose proof (write_members_spec d (dict_keys d) (fun m Hm => Hm)
                (String.concat EmptyString hypermedia_block)) as Hw.
  cbn zeta in Hw. fold (written_groups d) in Hw. fold (all_render d) in Hw.
  unfold write_tree_profile_page_gz.
  destruct (all_render d); split; intros Hr; try discriminate; exact Hw.
Qed.

Lemma X14_writer_succeeds_iff_terms_render_witness :
  (exists content, write_tree_profile_page_gz scenario_dict = Ok content)
  /\ (exists msg,
         write_tree_profile_page_gz
           [("m", [(URIRef "m", URIRef "p", BNode "b", URIRef "m")])]
         = Raise (ValueError msg)).
Proof.
  split.
  - eexists.
    apply (proj1 (X14_writer_succeeds_iff_terms_render scenario_dict)).
    vm_compute. reflexivity.
  - apply (proj2 (X14_writer_succeeds_iff_terms_render _)).
    vm_compute. reflexivity.
Defined.

(** ** Line ends *)

Lemma read_from_crlf (s : string) :
  no_cr s = true ->
  forall acc, read_from false acc (crlf s) = read_from false acc s.
Proof.
  unfold no_cr. induction s as [|c s IH]; intros Hs acc; [reflexivity|].
  cbn [all_chars] in Hs. apply andb_prop in Hs as [Hc Hs].
  apply negb_true_iff in Hc. cbn [crlf]. destruct (Ascii.eqb c LF) eqn:El.
  - apply Ascii.eqb_eq in El. subst c.
    cbn [read_from]. change (Ascii.eqb CR LF) with false.
    change (Ascii.eqb CR CR) with true. change (Ascii.eqb LF LF) with true.
    cbn iota. f_equal. now apply IH.
  - cbn [read_from]. rewrite El, Hc. now apply IH.
Qed.

(** X15: a text without CR and the same text with every LF turned into
    CR LF give the same result: the file is read with universal newlines
    and every line is stripped. *)
Theorem X15_crlf_line_ends :
  forall (perf_counter : Clock) (content : string) (batch_size : Z),
    no_cr content = true ->
    parse_tree_profile_batches perf_counter (crlf content) batch_size
    = parse_tree_profile_batches perf_counter content batch_size.
Proof.
  intros clk content B Hc. unfold parse_tree_profile_batches, read_lines.
  now rewrite read_from_crlf.
Qed.

Lemma X15_crlf_line_ends_witness :
  parse_tree_profile_batches sample_clock
    (crlf (marker_line "a" ++ "x y ." ++ NL)) 1
  = parse_tree_profile_batches sample_clock
      (marker_line "a" ++ "x y ." ++ NL) 1.
Proof.
  apply X15_crlf_line_ends. vm_compute. reflexivity.
Defined.

(** ** The TREE path of [main] *)

Lemma last_in_bounds (lo hi : Z) (l : list Z) (d : Z) :
  l <> [] -> Forall (fun c => lo <= c <= hi) l -> lo <= last l d <= hi.
Proof.
  intros Hne Hl. revert d Hne.
  induction Hl as [|c l Hc Hl IH]; intros d Hne; [congruence|].
  rewrite last_cons_default. destruct l as [|c' l']; [exact Hc|].
  rewrite last_cons_default.
  specialize (IH c ltac:(discriminate)). now rewrite last_cons_default in IH.
Qed.

(** X16: in [main], with the constants of the file and for every random
    source and clock, the TREE path returns 100 batches of 100 members,
    numbered 0 to 99, and the quads of the batches are all statements
    written less those of the last member, which are between 6 and 30. *)
Theorem X16_main_tree_path :
  forall (G : Type) (R : Random G) (g : G) (perf_counter : Clock),
    let counts :=
      statement_counts
        (fst (generate (Z.to_nat NUM_MEMBERS) TRIPLES_PER_MEMBER_MIN
                       TRIPLES_PER_MEMBER_MAX g)) in
    exists stats,
      main_tree_stats g perf_counter = Ok stats
      /\ Z.of_nat (List.length counts) = NUM_MEMBERS
      /\ map members_in_batch stats = repeat 100 100
      /\ zsum (map quads_in_batch stats) = zsum counts - last counts 0
      /\ 6 <= last counts 0 <= 30.
Proof.
  intros G R g clk counts. unfold main_tree_stats.
  set (d := fst (generate (Z.to_nat NUM_MEMBERS) TRIPLES_PER_MEMBER_MIN
                          TRIPLES_PER_MEMBER_MAX g)) in *.
  assert (Hd : clean_dict d = true) by apply generate_clean.
  destruct (page_counts clk d BATCH_SIZE Hd) as [content [stats [Hw [Hp Hc]]]].
  fold counts in Hc.
  destruct (generate_shape TRIPLES_PER_MEMBER_MIN TRIPLES_PER_MEMBER_MAX
              (Z.to_nat NUM_MEMBERS) g) as [Hk [_ [_ Hb]]].
  fold d in Hk, Hb. fold counts in Hb.
  assert (HG : Z.of_nat (List.length counts) = NUM_MEMBERS).
  { subst counts. rewrite statement_counts_length, Hk, length_map, length_seq.
    apply Z2Nat.id. unfold NUM_MEMBERS. lia. }
  exists stats. rewrite Hw. cbn [bind].
  split; [exact Hp|]. split; [exact HG|]. split; [|split].
  - rewrite map_members_counts, Hc.
    rewrite (group_batches_members_list BATCH_SIZE) by (unfold BATCH_SIZE; lia).
    cbn zeta. rewrite Z.add_0_l, HG. reflexivity.
  - rewrite map_quads_counts, Hc.
    rewrite (group_batches_quads BATCH_SIZE) by (unfold BATCH_SIZE; lia).
    rewrite Z.add_0_l, HG. reflexivity.
  - apply last_in_bounds.
    + intros Hnil. rewrite Hnil in HG. discriminate HG.
    + apply Hb. unfold TRIPLES_PER_MEMBER_MIN, TRIPLES_PER_MEMBER_MAX. lia.
Qed.

(** ** The renderer on generated quads *)

Section GeneratedRender.

Context {G : Type} `{Random G}.

Lemma renders_member_quad (member p : string) (o : Term) :
  (exists r, term_to_nq o = Ok r) ->
  renders (URIRef member, URIRef p, o, URIRef member) = true.
Proof.
  intros [r Hr]. unfold renders, quad_line. cbn [term_to_nq bind].
  now rewrite Hr.
Qed.

Lemma extra_quads_render (member : string) (k : nat) :
  forall g, forallb renders (fst (extra_quads member k g)) = true.
Proof.
  induction k as [|k IH]; intros g; [reflexivity|].
  cbn [extra_quads].
  destruct (choice _ _ g) as [name g1].
  destruct (random_lt_half g1) as [coin g2].
  destruct coin.
  - destruct (rand_label 10 g2) as [lbl g3]. specialize (IH g3).
    destruct (extra_quads member k g3) as [qs g4]. cbn [fst forallb] in *.
    rewrite IH, andb_true_r. apply renders_member_quad.
    eexists. reflexivity.
  - destruct (rand_label 6 g2) as [lbl g3]. specialize (IH g3).
    destruct (extra_quads member k g3) as [qs g4]. cbn [fst forallb] in *.
    rewrite IH, andb_true_r. apply renders_member_quad.
    eexists. reflexivity.
Qed.

End GeneratedRender.

(** X17: for every random source, member IRI and [n_triples], the writer
    renders every quad [member_quads] makes: the integer literal is built
    from a number, and [int] reads its text back. *)
Theorem X17_generated_quads_render :
  forall (G : Type) (R : Random G) (member : string) (n_triples : Z) (g : G),
    forallb renders (fst (member_quads member n_triples g)) = true
    /\ (forall v : Z,
           term_to_nq (Literal (mkLit (str_int v) (Some XSD_integer) None))
           = Ok (DQ ++ str_int v ++ DQ ++ "^^<" ++ XSD_integer ++ ">")).
Proof.
  intros G R member n g.
  assert (Hint : forall v : Z,
             term_to_nq (Literal (mkLit (str_int v) (Some XSD_integer) None))
             = Ok (DQ ++ str_int v ++ DQ ++ "^^<" ++ XSD_integer ++ ">")).
  { intros v. unfold term_to_nq. cbn [datatype lexical].
    now rewrite String.eqb_refl, py_int_str_int. }
  split; [|exact Hint].
  unfold member_quads.
  destruct (randint_draw 0 1000000 g) as [v g1].
  pose proof (extra_quads_render member (Z.to_nat (Z.max 0 (n - 3))) g1) as He.
  destruct (extra_quads member _ g1) as [extra g2]. cbn [fst forallb] in *.
  rewrite He, andb_true_r.
  rewrite !renders_member_quad; [reflexivity | | |].
  - eexists. apply Hint.
  - eexists. reflexivity.
  - eexists. reflexivity.
Qed.
